(** * Agent_Lab: the dual-tier memory manager of [src/agent.py]

    A shallow embedding of [MemoryItem] and [MemorySystem] (agent.py, lines
    29-131) together with the parts of the Python runtime they rely on:
    [str.lower], [str.split], the [in] test on strings, list slices,
    [sorted], [datetime.isoformat] / [datetime.fromisoformat] /
    [strftime('%H:%M')], and the value trees exchanged with [json].

    Modelling conventions.
    - A Python [str] is a [string] whose characters are the code points
      U+0000..U+00FF; [lower] and [is_space] are Python's on that range.
    - An [importance] is the rational number a finite Python number denotes
      ([Q]); NaN and the infinities are not represented.
    - [int] arguments ([max_short_term], [limit]) are [Z].
    - [datetime.now()] is an explicit argument [now].
    - The persisted store is the state of the one file the manager is bound
      to; the diagnostics printed by the two [except] handlers are not
      modelled.
    - The interpreter is one with the limit of 4300 digits on the
      conversion between [int] and [str], and one whose [Path.exists]
      passes on the [OSError] that does not mean absence (interpreters up
      to 3.13). What [fromisoformat] reads beyond the layouts [isoformat]
      writes differs between interpreters and is left undecided. *)

From Stdlib Require Import NArith ZArith QArith List String Ascii Bool Arith Lia.
From Stdlib Require Import Permutation Sorted.
Import ListNotations.

Set Warnings "-register-all,-abstract-large-number".

Local Close Scope Q_scope.
Local Open Scope string_scope.
Local Open Scope list_scope.

(* ------------------------------------------------------------------ *)
(** ** Python strings *)

Module PyStr.

Definition in_range (lo hi n : nat) : bool :=
  Nat.leb lo n && Nat.leb n hi.

(** [str.lower] on one code point below U+0100: A-Z and the Latin-1
    capitals U+00C0..U+00DE (U+00D7, the multiplication sign, excepted)
    move up by 32. *)
Definition lower_char (c : ascii) : ascii :=
  let n := nat_of_ascii c in
  if in_range 65 90 n || (in_range 192 222 n && negb (Nat.eqb n 215))
  then ascii_of_nat (n + 32)
  else c.

Fixpoint lower (s : string) : string :=
  match s with
  | EmptyString => EmptyString
  | String c s' => String (lower_char c) (lower s')
  end.

(** The characters [str.split()] treats as separators (those for which
    [str.isspace] holds), below U+0100. *)
Definition is_space (c : ascii) : bool :=
  let n := nat_of_ascii c in
  in_range 9 13 n || in_range 28 32 n || Nat.eqb n 133 || Nat.eqb n 160.

Definition flush (cur : list ascii) : list string :=
  match cur with
  | [] => []
  | _ :: _ => [string_of_list_ascii (rev cur)]
  end.

(** [split_from s cur]: scan [s] left to right; [cur] is the token being
    read, most recent character first. *)
Fixpoint split_from (s : string) (cur : list ascii) : list string :=
  match s with
  | EmptyString => flush cur
  | String c s' =>
      if is_space c then flush cur ++ split_from s' []
      else split_from s' (c :: cur)
  end.

(** [s.split()] with no argument: the maximal runs of non-separators. *)
Definition split (s : string) : list string := split_from s [].

(** [needle in hay] on strings. *)
Fixpoint contains (needle hay : string) : bool :=
  String.prefix needle hay ||
  match hay with
  | EmptyString => false
  | String _ hay' => contains needle hay'
  end.

(** ["sep".join(parts)] *)
Fixpoint join (sep : string) (parts : list string) : string :=
  match parts with
  | [] => EmptyString
  | [p] => p
  | p :: rest => p ++ sep ++ join sep rest
  end.

End PyStr.

(* ------------------------------------------------------------------ *)
(** ** Python list slices and [sorted] *)

Module PyList.

Section Slices.
Context {A : Type}.

(** Clamp a slice bound the way Python does: a negative bound counts
    from the end, and the result is kept inside [0, len]. *)
Definition clamp (len : nat) (i : Z) : nat :=
  let j := if (i <? 0)%Z then (i + Z.of_nat len)%Z else i in
  if (j <? 0)%Z then 0%nat
  else if (Z.of_nat len <? j)%Z then len
  else Z.to_nat j.

(** [l[:stop]] *)
Definition slice_to (stop : Z) (l : list A) : list A :=
  firstn (clamp (List.length l) stop) l.

(** [l[start:]] *)
Definition slice_from (start : Z) (l : list A) : list A :=
  skipn (clamp (List.length l) start) l.

(** [l.pop(0)] on a non-empty list: the removed head and what is left. *)
Definition pop0 (l : list A) : option (A * list A) :=
  match l with
  | [] => None
  | x :: rest => Some (x, rest)
  end.
End Slices.

Section Sorted.
Context {A : Type}.
Variable key : A -> Q.

(** [x] goes behind every element of strictly larger key and in front
    of the rest. *)
Fixpoint insert_desc (x : A) (l : list A) : list A :=
  match l with
  | [] => [x]
  | y :: l' =>
      if Qle_bool (key y) (key x) then x :: y :: l'
      else y :: insert_desc x l'
  end.

(** [sorted(l, key=key, reverse=True)]: Python guarantees a stable sort,
    also under [reverse=True]; the stable descending order of a list is
    unique, and this insertion sort computes it. *)
Fixpoint sorted_desc (l : list A) : list A :=
  match l with
  | [] => []
  | x :: l' => insert_desc x (sorted_desc l')
  end.
End Sorted.

End PyList.

(* ------------------------------------------------------------------ *)
(** ** Naive local [datetime] values *)

Module DateTime.

Local Open Scope N_scope.

Record datetime : Type := mkDateTime {
  year : N; month : N; day : N;
  hour : N; minute : N; second : N;
  microsecond : N
}.

Definition between (lo hi n : N) : bool := (lo <=? n) && (n <=? hi).

Definition is_leap (y : N) : bool :=
  ((y mod 4 =? 0) && negb (y mod 100 =? 0)) || (y mod 400 =? 0).

Definition days_in_month (y m : N) : N :=
  match m with
  | 2 => if is_leap y then 29 else 28
  | 4 | 6 | 9 | 11 => 30
  | _ => 31
  end.

(** The range checks of the [datetime] constructor; every [datetime] the
    interpreter hands out passes them. *)
Definition valid (d : datetime) : bool :=
  between 1 9999 (year d) &&
  between 1 12 (month d) &&
  between 1 (days_in_month (year d) (month d)) (day d) &&
  (hour d <? 24) && (minute d <? 60) && (second d <? 60) &&
  (microsecond d <? 1000000).

Definition digit (n : N) : ascii := ascii_of_N (48 + n).

Definition digit_val (c : ascii) : option N :=
  let n := N_of_ascii c in
  if between 48 57 n then Some (n - 48) else None.

(** [pad w n tl]: [n] in decimal on [w] digits, zero-filled, in front of
    [tl]. *)
Fixpoint pad (w : nat) (n : N) (tl : string) : string :=
  match w with
  | O => tl
  | S w' =>
      let unit := 10 ^ N.of_nat w' in
      String (digit (n / unit)) (pad w' (n mod unit) tl)
  end.

(** [read_digits w s acc]: exactly [w] decimal digits off the front of
    [s], accumulated onto [acc]. *)
Fixpoint read_digits (w : nat) (s : string) (acc : N) : option (N * string) :=
  match w with
  | O => Some (acc, s)
  | S w' =>
      match s with
      | EmptyString => None
      | String c s' =>
          match digit_val c with
          | Some d => read_digits w' s' (acc * 10 + d)
          | None => None
          end
      end
  end.

Definition expect (c : ascii) (s : string) : option string :=
  match s with
  | String c' s' => if Ascii.eqb c c' then Some s' else None
  | EmptyString => None
  end.

(** [d.strftime('%H:%M')] *)
Definition strftime_HM (d : datetime) : string :=
  pad 2 (hour d) (String ":" (pad 2 (minute d) EmptyString)).

(** [d.isoformat()]: [YYYY-MM-DDTHH:MM:SS], followed by [.ffffff] when the
    microsecond field is not zero. *)
Definition isoformat (d : datetime) : string :=
  let fraction :=
    if microsecond d =? 0 then EmptyString
    else String "." (pad 6 (microsecond d) EmptyString) in
  let time :=
    pad 2 (hour d) (String ":" (pad 2 (minute d)
      (String ":" (pad 2 (second d) fraction)))) in
  pad 4 (year d) (String "-" (pad 2 (month d)
    (String "-" (pad 2 (day d) (String "T" time))))).

Notation "'do' p <- c ;; k" :=
  (match c with Some p => k | None => None end)
  (at level 10, p pattern, c at level 100, k at level 200).

(** The optional fraction: nothing, or a dot and six digits. *)
Definition read_fraction (s : string) : option (N * string) :=
  match s with
  | EmptyString => Some (0, EmptyString)
  | _ => do s' <- expect "." s ;; read_digits 6 s' 0
  end.

(** A string in one of the two layouts [isoformat] writes, with every
    field in range, read back as a [datetime]. *)
Definition read_isoformat (s : string) : option datetime :=
  do (y, s) <- read_digits 4 s 0 ;;
  do s <- expect "-" s ;;
  do (mo, s) <- read_digits 2 s 0 ;;
  do s <- expect "-" s ;;
  do (d, s) <- read_digits 2 s 0 ;;
  do s <- expect "T" s ;;
  do (h, s) <- read_digits 2 s 0 ;;
  do s <- expect ":" s ;;
  do (mi, s) <- read_digits 2 s 0 ;;
  do s <- expect ":" s ;;
  do (se, s) <- read_digits 2 s 0 ;;
  do (us, s) <- read_fraction s ;;
  match s with
  | EmptyString =>
      let r := mkDateTime y mo d h mi se us in
      if valid r then Some r else None
  | _ => None
  end.

(** What [datetime.fromisoformat] does with a string. *)
Inductive parsed : Type :=
| Parsed (d : datetime)        (* returns [d] *)
| Refused                      (* raises [ValueError] *)
| Undecided.                   (* not decided by the model *)

(** Is one of the first [w] characters of [s] a decimal digit? *)
Fixpoint any_digit (w : nat) (s : string) : bool :=
  match w, s with
  | S w', String c s' =>
      match digit_val c with
      | Some _ => true
      | None => any_digit w' s'
      end
  | _, _ => false
  end.

(** [datetime.fromisoformat(s)]. Every interpreter reads the two layouts
    [isoformat] writes. Every interpreter refuses a string of fewer than
    seven characters, the shortest spelling of a date, and a string that
    has no digit where the year stands. The model does not decide the
    other strings: some every interpreter reads (a date alone, any
    character for the [T], hours and minutes only, a UTC offset), some
    only the later ones read, and some none reads. *)
Definition fromisoformat (s : string) : parsed :=
  match read_isoformat s with
  | Some d => Parsed d
  | None =>
      if Nat.ltb (String.length s) 7 || negb (any_digit 4 s)
      then Refused else Undecided
  end.

End DateTime.

(* ------------------------------------------------------------------ *)
(** ** The values [json.load] returns and [json.dump] accepts *)

Module Json.

Inductive value : Type :=
| Null
| Bool (b : bool)
| Num (q : Q)
| Str (s : string)
| Arr (items : list value)
| Obj (fields : list (string * value)).

(** [d[k]] on an object, [None] for a missing key. The fields are kept in
    document order, and a key written twice has its last value, as in the
    dict [json.load] builds. *)
Fixpoint lookup (k : string) (fields : list (string * value)) : option value :=
  match fields with
  | [] => None
  | (k', v) :: rest =>
      match lookup k rest with
      | Some v' => Some v'
      | None => if String.eqb k k' then Some v else None
      end
  end.

(** [json] writes and reads every float, and an integer only when it has
    at most 4300 digits (the interpreter's limit on the conversion between
    [int] and [str]); on a larger one [json.dump] and [json.load] raise
    [ValueError]. *)
Definition max_str_digits : Z := 4300.

Definition convertible (q : Q) : bool :=
  (Z.abs (Qnum q) <? 10 ^ max_str_digits * Z.pos (Qden q))%Z.

End Json.

(* ------------------------------------------------------------------ *)
(** ** The persisted store *)

Module Store.

(** What the path [memory_file] holds. [Document v] is a file whose text
    [json.load] parses to [v]; [json.dump] followed by [json.load] is the
    identity on such trees, which is how a written file is represented. *)
Inductive file : Type :=
| Inaccessible                 (* [memory_file.exists()] raises [OSError]:
                                  the path cannot be examined (a name too
                                  long, a directory that may not be
                                  searched); opening it fails as well *)
| Missing                      (* [memory_file.exists()] is false *)
| Unreadable                   (* exists, [open(..., 'r')] raises *)
| Malformed                    (* readable, [json.load] raises *)
| Document (v : Json.value).

Record store : Type := mkStore {
  contents : file;
  writable : bool              (* whether [open(..., 'w')] succeeds *)
}.

End Store.

(** The exceptions the two [try] blocks can see; all derive from
    [Exception]. *)
Inductive exn : Type :=
| OSError
| JSONDecodeError
| TypeError
| KeyError (key : string)
| ValueError.

(* ------------------------------------------------------------------ *)
(** ** [MemoryItem] and [MemorySystem] *)

Import DateTime.

Record MemoryItem : Type := mkMemoryItem {
  timestamp : datetime;
  content : string;
  importance : Q;
  tags : list string
}.

Record MemorySystem : Type := mkMemorySystem {
  max_short_term : Z;
  short_term : list MemoryItem;
  long_term : list MemoryItem
}.

(** The literal [0.7] of [add_short_term]: the double nearest to 7/10,
    which is 3152519739159347 / 2^52. *)
Definition promotion_threshold : Q :=
  (3152519739159347 # 4503599627370496)%Q.

(** [tags or []] *)
Definition tags_or_empty (tags : option (list string)) : list string :=
  match tags with
  | Some l => l
  | None => []
  end.

(** *** Persistence *)

Definition to_record (mem : MemoryItem) : Json.value :=
  Json.Obj [ ("timestamp", Json.Str (isoformat (timestamp mem)));
             ("content", Json.Str (content mem));
             ("importance", Json.Num (importance mem));
             ("tags", Json.Arr (map Json.Str (tags mem))) ].

(** What [json.dump(data, f, indent=2)] leaves in the file opened for
    writing, which [open] has emptied: the document, or, when an
    [importance] cannot be converted, the text written before the
    [ValueError], which is not a document. *)
Definition dumped (l : list MemoryItem) : Store.file :=
  if forallb (fun mem => Json.convertible (importance mem)) l
  then Store.Document (Json.Arr (map to_record l))
  else Store.Malformed.

(** [_save_memory]: the whole of [long_term] replaces the file. Every
    exception is swallowed: when the file cannot be opened for writing the
    store is as before, and when [json.dump] raises the file is left with
    what had been written. A file that could not be read before (one that
    may be written only) cannot be read afterwards either; a file the
    write creates can. *)
Definition _save_memory (self : MemorySystem) (st : Store.store) : Store.store :=
  if Store.writable st then
    match Store.contents st with
    | Store.Inaccessible | Store.Unreadable => st
    | _ => Store.mkStore (dumped (long_term self)) true
    end
  else st.

(** What the comprehension of [_load_memory] puts in a [MemoryItem] before
    any use is made of it: a parsed timestamp ([None] when the model does
    not decide what [fromisoformat] makes of the string) and three values
    taken from the record as they are. *)
Record raw_item : Type := mkRaw {
  raw_timestamp : option datetime;
  raw_content : Json.value;
  raw_importance : Json.value;
  raw_tags : Json.value
}.

Notation "'try' p <- c ;; k" :=
  (match c with inr p => k | inl e => inl e end)
  (at level 10, p pattern, c at level 100, k at level 200).

(** [item[k]] for a string [k]: a dict answers or raises [KeyError]; a
    list or a string wants an integer index and the other values are not
    subscriptable, a [TypeError] in both cases. *)
Definition getitem (item : Json.value) (k : string) : exn + Json.value :=
  match item with
  | Json.Obj fields =>
      match Json.lookup k fields with
      | Some v => inr v
      | None => inl (KeyError k)
      end
  | _ => inl TypeError
  end.

(** [datetime.fromisoformat(v)] on a loaded value; anything but a string
    is a [TypeError]. After an undecided timestamp ([inr None]) the
    comprehension is followed further: an exception that is certain
    later on is raised in any case, if not already at the timestamp, and
    the handler treats all exceptions alike. *)
Definition parse_timestamp (v : Json.value) : exn + option datetime :=
  match v with
  | Json.Str s =>
      match fromisoformat s with
      | Parsed d => inr (Some d)
      | Refused => inl ValueError
      | Undecided => inr None
      end
  | _ => inl TypeError
  end.

(** One turn of the comprehension, in Python's evaluation order. *)
Definition build_item (item : Json.value) : exn + raw_item :=
  try ts <- getitem item "timestamp" ;;
  try d <- parse_timestamp ts ;;
  try c <- getitem item "content" ;;
  try i <- getitem item "importance" ;;
  try t <- getitem item "tags" ;;
  inr (mkRaw d c i t).

Fixpoint build_items (data : list Json.value) : exn + list raw_item :=
  match data with
  | [] => inr []
  | item :: rest =>
      try r <- build_item item ;;
      try rs <- build_items rest ;;
      inr (r :: rs)
  end.

Fixpoint chars (s : string) : list Json.value :=
  match s with
  | EmptyString => []
  | String c s' => Json.Str (String c EmptyString) :: chars s'
  end.

(** [for item in data]: a list gives its elements, a dict its keys, a
    string its characters; the other values are not iterable. *)
Definition iterate (data : Json.value) : exn + list Json.value :=
  match data with
  | Json.Arr items => inr items
  | Json.Obj fields => inr (map (fun kv => Json.Str (fst kv)) fields)
  | Json.Str s => inr (chars s)
  | _ => inl TypeError
  end.

(** The body of the [try] in [_load_memory], entered when the file
    exists. *)
Definition read_items (f : Store.file) : exn + list raw_item :=
  match f with
  | Store.Inaccessible | Store.Missing | Store.Unreadable => inl OSError
  | Store.Malformed => inl JSONDecodeError
  | Store.Document data =>
      try items <- iterate data ;;
      build_items items
  end.

(** The loaded values seen at the types [MemoryItem] declares. The source
    stores them unchecked; a record whose [content] is not a string, whose
    [importance] is not a number or whose [tags] is not a list of strings
    gives a manager this development does not describe ([None]), and so
    does a timestamp the model does not decide. A number [json.load]
    cannot have returned (an integer past the conversion limit) is not
    described either. *)
Fixpoint as_tags (l : list Json.value) : option (list string) :=
  match l with
  | [] => Some []
  | Json.Str s :: rest =>
      match as_tags rest with
      | Some ss => Some (s :: ss)
      | None => None
      end
  | _ :: _ => None
  end.

Definition typed (r : raw_item) : option MemoryItem :=
  match raw_content r, raw_importance r, raw_tags r with
  | Json.Str c, Json.Num i, Json.Arr t =>
      match raw_timestamp r, as_tags t with
      | Some d, Some ts =>
          if Json.convertible i then Some (mkMemoryItem d c i ts) else None
      | _, _ => None
      end
  | _, _, _ => None
  end.

Fixpoint typed_all (rs : list raw_item) : option (list MemoryItem) :=
  match rs with
  | [] => Some []
  | r :: rest =>
      match typed r, typed_all rest with
      | Some m, Some ms => Some (m :: ms)
      | _, _ => None
      end
  end.

(** How the constructor ends: with a manager, with an exception that
    reaches the caller, or in a way this development does not describe
    (see [typed]). *)
Inductive construction : Type :=
| Built (self : MemorySystem)
| Raises (e : exn)
| Undescribed.

(** [_load_memory]. The test [self.memory_file.exists()] stands before
    the [try]: when it raises, nothing catches the exception. Inside the
    [try], [long_term] is assigned only once the whole comprehension has
    run; any exception leaves it as it was. *)
Definition _load_memory (self : MemorySystem) (st : Store.store)
  : construction :=
  match Store.contents st with
  | Store.Inaccessible => Raises OSError
  | Store.Missing => Built self
  | f =>
      match read_items f with
      | inr raws =>
          match typed_all raws with
          | Some items =>
              Built (mkMemorySystem (max_short_term self) (short_term self) items)
          | None => Undescribed
          end
      | inl _ => Built self
      end
  end.

(** [MemorySystem(max_short_term, memory_file)] *)
Definition __init__ (max_short_term : Z) (st : Store.store)
  : construction :=
  _load_memory (mkMemorySystem max_short_term [] []) st.

(** *** Operations *)

Definition new_item (now : datetime) (content : string) (importance : Q)
    (tags : option (list string)) : MemoryItem :=
  mkMemoryItem now content importance (tags_or_empty tags).

(** Lines 59-63 of [add_short_term], run after the append: when the
    buffer is over its capacity, [pop(0)] takes the oldest item out, and
    the item goes to [long_term] if it is important enough. *)
Definition evict_oldest (self : MemorySystem) : MemorySystem :=
  if (max_short_term self <? Z.of_nat (List.length (short_term self)))%Z then
    match PyList.pop0 (short_term self) with
    | Some (oldest, rest) =>
        if Qle_bool promotion_threshold (importance oldest)
        then mkMemorySystem (max_short_term self) rest
                            (long_term self ++ [oldest])
        else mkMemorySystem (max_short_term self) rest (long_term self)
    | None => self   (* not reached: the buffer has just been appended to *)
    end
  else self.

Definition add_short_term (self : MemorySystem) (st : Store.store)
    (now : datetime) (content : string) (importance : Q)
    (tags : option (list string)) : MemorySystem * Store.store :=
  let item := new_item now content importance tags in
  let appended :=
    mkMemorySystem (max_short_term self) (short_term self ++ [item])
                   (long_term self) in
  let self' := evict_oldest appended in
  (self', _save_memory self' st).

Definition add_long_term (self : MemorySystem) (st : Store.store)
    (now : datetime) (content : string) (importance : Q)
    (tags : option (list string)) : MemorySystem * Store.store :=
  let item := new_item now content importance tags in
  let self' :=
    mkMemorySystem (max_short_term self) (short_term self)
                   (long_term self ++ [item]) in
  (self', _save_memory self' st).

(** [any(word.lower() in mem.content.lower() for word in query.split())] *)
Definition relevant_to (query : string) (mem : MemoryItem) : bool :=
  existsb (fun word => PyStr.contains (PyStr.lower word)
                                      (PyStr.lower (content mem)))
          (PyStr.split query).

Definition search_memory (self : MemorySystem) (query : string) (limit : Z)
  : list MemoryItem :=
  let all_memories := short_term self ++ long_term self in
  let relevant := filter (relevant_to query) all_memories in
  PyList.slice_to limit (PyList.sorted_desc importance relevant).

(** One line of [get_context]: [f"[{mem.timestamp.strftime('%H:%M')}] {mem.content}"] *)
Definition context_line (mem : MemoryItem) : string :=
  "[" ++ strftime_HM (timestamp mem) ++ "] " ++ content mem.

Definition get_context (self : MemorySystem) (limit : Z) : string :=
  match short_term self with
  | [] => "No previous context."
  | _ :: _ =>
      let context_items := PyList.slice_from (- limit) (short_term self) in
      PyStr.join (String "010" EmptyString) (map context_line context_items)
  end.

(** *** Sessions: the public operations as commands on the manager and
    its store *)

Inductive op : Type :=
| AddShortTerm (now : datetime) (content : string) (importance : Q)
               (tags : option (list string))
| AddLongTerm (now : datetime) (content : string) (importance : Q)
              (tags : option (list string))
| SearchMemory (query : string) (limit : Z)
| GetContext (limit : Z).

Definition step (o : op) (s : MemorySystem * Store.store)
  : MemorySystem * Store.store :=
  match o with
  | AddShortTerm now c i t => add_short_term (fst s) (snd s) now c i t
  | AddLongTerm now c i t => add_long_term (fst s) (snd s) now c i t
  | SearchMemory _ _ | GetContext _ => s
  end.

Fixpoint run (ops : list op) (s : MemorySystem * Store.store)
  : MemorySystem * Store.store :=
  match ops with
  | [] => s
  | o :: rest => run rest (step o s)
  end.

(* ================================================================== *)
(** * Vocabulary of the statements, and sample data *)

(** ** Words used in the statements *)

(** A string made of separators only (the empty string included). *)
Definition blank (s : string) : Prop :=
  Forall (fun c => PyStr.is_space c = true) (list_ascii_of_string s).

(** [desc key a b]: by its key, [a] may stand in front of [b] in a
    descending sequence. *)
Definition desc {A : Type} (key : A -> Q) (a b : A) : Prop :=
  (key b <= key a)%Q.

(** The elements of key [k]; two numbers are the same key when they are
    equal as numbers. *)
Definition has_key {A : Type} (key : A -> Q) (k : Q) (x : A) : bool :=
  Qeq_bool (key x) k.

Definition capacity_respected (self : MemorySystem) : Prop :=
  (Z.of_nat (List.length (short_term self)) <= max_short_term self)%Z.

(** The candidate sequence of [search_memory]. *)
Definition candidates (self : MemorySystem) : list MemoryItem :=
  short_term self ++ long_term self.

(** The match rule in words: some token of the query occurs, both sides
    lower-cased, as a substring of the item's content. *)
Definition mentions (query : string) (mem : MemoryItem) : Prop :=
  exists word,
    In word (PyStr.split query) /\
    exists pre post,
      PyStr.lower (content mem) = (pre ++ PyStr.lower word ++ post)%string.

Definition newline : string := String "010" EmptyString.

(** The last [n] items of a sequence, oldest first. *)
Definition last_items {A : Type} (n : nat) (l : list A) : list A :=
  skipn (List.length l - n) l.

Definition two_digits (n : N) : string :=
  String (digit (n / 10)) (String (digit (n mod 10)) EmptyString).

(** The line ["[HH:MM] <content>"] of an item. *)
Definition rendered (mem : MemoryItem) : string :=
  ("[" ++ two_digits (hour (timestamp mem)) ++ ":"
       ++ two_digits (minute (timestamp mem)) ++ "] " ++ content mem)%string.



(** The manager as the constructor sets it up before loading. *)
Definition empty_manager (cap : Z) : MemorySystem := mkMemorySystem cap [] [].

Definition record_fields : list string :=
  ["timestamp"; "content"; "importance"; "tags"].

(** A record is malformed when one of the four fields is missing, or
    when its timestamp is refused by every interpreter: it is not a
    string, or it is a string too short to spell a date, or a string
    without a digit among its first four characters. *)
Definition bad_timestamp (v : Json.value) : Prop :=
  match v with
  | Json.Str s =>
      (String.length s < 7)%nat \/
      (forall c, In c (firstn 4 (list_ascii_of_string s)) ->
                 DateTime.digit_val c = None)
  | _ => True
  end.

Definition malformed (item : Json.value) : Prop :=
  exists fields,
    item = Json.Obj fields /\
    ((exists k, In k record_fields /\ Json.lookup k fields = None) \/
     (exists v, Json.lookup "timestamp" fields = Some v /\ bad_timestamp v)).


(** ** Sample data *)

Definition sample_time : datetime := mkDateTime 2024 2 29 7 5 9 0.

Definition empty_store : Store.store := Store.mkStore Store.Missing true.

Definition note (n : string) : MemoryItem :=
  mkMemoryItem sample_time ("note " ++ n) 1 [].

Definition six_notes : MemorySystem :=
  mkMemorySystem 10
    [note "1"; note "2"; note "3"; note "4"; note "5"; note "6"] [].

Definition two_notes : MemorySystem :=
  mkMemorySystem 10 [note "1"] [note "2"].

Definition ranked_notes : MemorySystem :=
  mkMemorySystem 10
    [mkMemoryItem sample_time "note a" (1 # 2) [];
     mkMemoryItem sample_time "note b" (9 # 10) []]
    [mkMemoryItem sample_time "note c" (1 # 2) [];
     mkMemoryItem sample_time "note d" 1 []].

Definition archive : MemorySystem :=
  mkMemorySystem 3 [note "1"]
    [mkMemoryItem (mkDateTime 2023 12 31 23 59 58 250000)
                  "binding site analysis" (9 # 10) ["pymol"; "site"];
     note "2"].

Definition good_record : Json.value := to_record (note "1").

Definition record_without_tags : Json.value :=
  Json.Obj [ ("timestamp", Json.Str "2024-02-29T07:05:09");
             ("content", Json.Str "note 2");
             ("importance", Json.Num 1) ].

(* ================================================================== *)
(** * The rest of [src/agent.py]: tool registry and agent

    [ToolRegistry] (lines 134-168) and the parts of [PyMOLAgent] that
    decide something themselves: the choice and check of the API key in
    the constructor (lines 178-198), the memory traffic of
    [process_message] (lines 280-342) and the dispatch of function calls
    in [_handle_function_calls] (lines 353-370). The Gemini client is
    outside the repository; what it answers is an argument. *)

(** ** More of the Python runtime *)

Module PyStr2.

Fixpoint lstrip (s : string) : string :=
  match s with
  | EmptyString => EmptyString
  | String c s' => if PyStr.is_space c then lstrip s' else s
  end.

Fixpoint rstrip (s : string) : string :=
  match s with
  | EmptyString => EmptyString
  | String c s' =>
      match rstrip s' with
      | EmptyString => if PyStr.is_space c then EmptyString
                       else String c EmptyString
      | r => String c r
      end
  end.

(** [s.strip()] with no argument. *)
Definition strip (s : string) : string := rstrip (lstrip s).

(** [s.startswith(p)] *)
Definition startswith (p s : string) : bool := String.prefix p s.

(** [s[:n]] for a string and [n >= 0]. *)
Fixpoint take (n : nat) (s : string) : string :=
  match n, s with
  | S n', String c s' => String c (take n' s')
  | _, _ => EmptyString
  end.

(** Truth value of an [Optional[str]]: [None] and [""] are false. *)
Definition truthy (v : option string) : bool :=
  match v with
  | Some (String _ _) => true
  | _ => false
  end.

(** [a or b] on [Optional[str]] values. *)
Definition or_else (a b : option string) : option string :=
  if truthy a then a else b.

End PyStr2.

(** ** Insertion-ordered dictionaries with string keys *)

Module PyDict.

Section Dict.
Context {V : Type}.

Definition dict : Type := list (string * V).

(** [d[k] = v]: a key already present keeps its place and takes the new
    value; a new key goes to the end. *)
Fixpoint set (k : string) (v : V) (d : dict) : dict :=
  match d with
  | [] => [(k, v)]
  | (k', v') :: rest =>
      if String.eqb k k' then (k', v) :: rest
      else (k', v') :: set k v rest
  end.

(** [d.get(k)] *)
Fixpoint get (k : string) (d : dict) : option V :=
  match d with
  | [] => None
  | (k', v') :: rest => if String.eqb k k' then Some v' else get k rest
  end.

Definition keys (d : dict) : list string := map fst d.

End Dict.

Arguments dict : clear implicits.

End PyDict.

(** ** [ToolRegistry] *)

(** A registered callable: its docstring and what calling it with the
    keyword arguments [args] gives, a result or the text of the exception
    it raised. Effects of a tool outside the agent are not represented. *)
Record callable : Type := mkCallable {
  doc : option string;
  invoke : Json.value -> string + Json.value
}.

Record declaration : Type := mkDeclaration {
  decl_name : string;
  decl_description : string;
  decl_parameters : Json.value
}.

Record ToolRegistry : Type := mkToolRegistry {
  tools : PyDict.dict callable;
  tool_declarations : list declaration
}.

(** [ToolRegistry()] *)
Definition empty_registry : ToolRegistry := mkToolRegistry [] [].

Definition _extract_parameters (func : callable) : Json.value :=
  Json.Obj [ ("type", Json.Str "object");
             ("properties", Json.Obj []);
             ("required", Json.Arr []) ].

(** [description or f"Tool for {name}"] *)
Definition description_or_default (description : option string) (name : string)
  : string :=
  match description with
  | Some (String c s) => String c s
  | _ => ("Tool for " ++ name)%string
  end.

(** [register_tool]; every Python object has a [__doc__] attribute, so the
    [hasattr] test holds. *)
Definition register_tool (self : ToolRegistry) (name : string)
    (func : callable) (description : option string) : ToolRegistry :=
  let tools' := PyDict.set name func (tools self) in
  let description' :=
    match description with
    | None => doc func
    | Some _ => description
    end in
  mkToolRegistry tools'
    (tool_declarations self ++
     [mkDeclaration name (description_or_default description' name)
                    (_extract_parameters func)]).

(** [get_tools_config]: one [types.Tool], holding one declaration, per
    entry of [tool_declarations]. *)
Definition get_tools_config (self : ToolRegistry) : list (list declaration) :=
  map (fun decl => [decl]) (tool_declarations self).

(** The loop [for name, func, desc in ...: agent.add_tool(name, func, desc)]
    of the [register_*_tools] functions; [add_tool] hands over to
    [register_tool]. *)
Fixpoint register_all (entries : list (string * callable * option string))
    (self : ToolRegistry) : ToolRegistry :=
  match entries with
  | [] => self
  | (name, func, desc) :: rest =>
      register_all rest (register_tool self name func desc)
  end.

(** ** [PyMOLAgent]: the API key *)

(** The two environment variables the constructor reads. *)
Record environ : Type := mkEnviron {
  GEMINI_API_KEY : option string;
  GOOGLE_API_KEY : option string
}.

(** The two [ValueError]s of lines 184-192, with the values their
    messages show, and the [ValueError] of the assignment to
    [os.environ] at line 198, which refuses a value holding U+0000. *)
Inductive key_error : Type :=
| KeyRequired
| InvalidKeyFormat (shown : string) (length : nat)
| EmbeddedNull.

Definition has_null (s : string) : bool :=
  PyStr.contains (String Ascii.zero EmptyString) s.

(** Lines 178-198 of [PyMOLAgent.__init__]: choose the key, strip it,
    check it, and export it as [GOOGLE_API_KEY]. *)
Definition choose_api_key (api_key : option string) (env : environ)
  : key_error + (string * environ) :=
  let chosen :=
    PyStr2.or_else (PyStr2.or_else api_key (GEMINI_API_KEY env))
                   (GOOGLE_API_KEY env) in
  let stripped :=
    if PyStr2.truthy chosen then option_map PyStr2.strip chosen else chosen in
  match stripped with
  | Some (String c s) =>
      let key := String c s in
      if PyStr2.startswith "AIza" key
      then if has_null key then inl EmbeddedNull
           else inr (key, mkEnviron (GEMINI_API_KEY env) (Some key))
      else inl (InvalidKeyFormat (PyStr2.take 10 key) (String.length key))
  | _ => inl KeyRequired
  end.

(** ** [PyMOLAgent]: one turn of conversation *)

(** The literals [0.8], [0.9] and [1.0] of [process_message], as the
    doubles they denote. *)
Definition user_importance : Q := (3602879701896397 # 4503599627370496)%Q.
Definition agent_importance : Q := (8106479329266893 # 9007199254740992)%Q.
Definition error_importance : Q := 1%Q.

(** How the [try] block of [process_message] ends: with the text of the
    model's answer (given at once, or after the function calls were
    answered), or in the handler, with the message it builds from the
    exception. *)
Inductive outcome : Type :=
| Answered (response_text : string)
| Failed (error_msg : string).

(** [self.memory.get_context()] and the text sent to the model,
    [f"Context:\n{context}\n\nUser message: {message}"]. *)
Definition prompt (context message : string) : string :=
  ("Context:" ++ String "010" context ++ String "010" (String "010"
     ("User message: " ++ message)))%string.

Record turn : Type := mkTurn {
  returned : string;
  sent : string;
  memory : MemorySystem * Store.store
}.

(** [process_message]: the user's message goes to short-term memory, the
    model is asked with the recent context, and the answer (or the error
    message) goes to short-term memory and is returned. [now1] and [now2]
    are the clock readings of the two [add_short_term] calls. *)
Definition process_message (s : MemorySystem * Store.store)
    (now1 now2 : datetime) (message : string)
    (model : string -> outcome) : turn :=
  let s1 := add_short_term (fst s) (snd s) now1
              ("User: " ++ message) user_importance None in
  let context := get_context (fst s1) 5 in
  let text := prompt context message in
  match model text with
  | Answered response_text =>
      mkTurn response_text text
        (add_short_term (fst s1) (snd s1) now2
           ("Agent: " ++ response_text) agent_importance None)
  | Failed error_msg =>
      mkTurn error_msg text
        (add_short_term (fst s1) (snd s1) now2 error_msg error_importance None)
  end.

(** A conversation: the turns in order, each with its two clock readings,
    its message and the model's behaviour. *)
Fixpoint converse
    (turns : list (datetime * datetime * string * (string -> outcome)))
    (s : MemorySystem * Store.store) : MemorySystem * Store.store :=
  match turns with
  | [] => s
  | (now1, now2, message, model) :: rest =>
      converse rest (memory (process_message s now1 now2 message model))
  end.

(** ** [PyMOLAgent]: function calls *)

(** The loop of lines 353-370: a call to a registered tool gives one
    result, the tool's answer or [{"error": str(e)}] when it raised; a
    call to an unknown name gives none. *)
Fixpoint execute_calls (tools : PyDict.dict callable)
    (calls : list (string * Json.value)) : list (string * Json.value) :=
  match calls with
  | [] => []
  | (tool_name, args) :: rest =>
      match PyDict.get tool_name tools with
      | Some func =>
          let response :=
            match invoke func args with
            | inr result => result
            | inl e => Json.Obj [("error", Json.Str e)]
            end in
          (tool_name, response) :: execute_calls tools rest
      | None => execute_calls tools rest
      end
  end.

(** ** Further vocabulary *)

(** Important enough to be promoted on eviction. *)
Definition important (mem : MemoryItem) : bool :=
  Qle_bool promotion_threshold (importance mem).

(** The arguments of one [add_short_term] call, clock reading included. *)
Definition short_term_args : Type :=
  (datetime * string * Q * option (list string))%type.

Definition item_of (a : short_term_args) : MemoryItem :=
  let '(now, text, weight, labels) := a in new_item now text weight labels.

Definition add_short_term_op (a : short_term_args) : op :=
  let '(now, text, weight, labels) := a in AddShortTerm now text weight labels.





(** The first value of a list that is neither [None] nor empty. *)
Fixpoint first_nonempty (l : list (option string)) : option string :=
  match l with
  | [] => None
  | Some (String c s) :: _ => Some (String c s)
  | _ :: rest => first_nonempty rest
  end.



(** The names a list of registrations carries, in order. *)
Definition entry_names (entries : list (string * callable * option string))
  : list string :=
  map (fun e => fst (fst e)) entries.

Definition declared_names (self : ToolRegistry) : list string :=
  map decl_name (tool_declarations self).

Definition registered (tools : PyDict.dict callable) (name : string) : bool :=
  match PyDict.get name tools with
  | Some _ => true
  | None => false
  end.

Definition sample_tool (answer : string) : callable :=
  mkCallable (Some "A sample tool.") (fun _ => inr (Json.Str answer)).

Definition failing_tool : callable :=
  mkCallable None (fun _ => inl "boom").

Definition no_environ : environ := mkEnviron None None.

(** The key a result of [choose_api_key] carries, or the error. *)
Definition chosen_key (r : key_error + (string * environ)) : key_error + string :=
  match r with
  | inr (key, _) => inr key
  | inl e => inl e
  end.

Definition all_important (l : list MemoryItem) : Prop :=
  Forall (fun mem => important mem = true) l.

(** The item [process_message] stores for the user's message. *)
Definition user_item (now : datetime) (message : string) : MemoryItem :=
  new_item now ("User: " ++ message) user_importance None.

Definition silent_model (text : string) : outcome := Failed "Error processing message: timeout".

Definition echo_model (text : string) : outcome := Answered text.

(** ** The tools of the integrated agent

    Names and descriptions as registered by [_register_base_tools]
    (agent.py), [register_pymol_tools], [register_vision_tools],
    [register_desktop_tools] and [register_gui_inspector_tools], in the
    order [IntegratedPyMOLAgent] (main.py) runs them. The functions behind
    the names drive PyMOL and the desktop; they are taken as given
    ([impl]). *)

Definition base_tools : list (string * string) :=
  [ ("echo_message", "Echo a message for testing purposes") ].

Definition pymol_tools : list (string * string) :=
  [ ("execute_pymol_command", "Execute any PyMOL command and return the result");
    ("load_molecule", "Load a molecular structure file (PDB, MOL2, etc.) in PyMOL");
    ("set_molecular_representation",
     "Set molecular representation (lines, sticks, spheres, surface, cartoon, ribbon)");
    ("color_molecule", "Apply color to a molecular object");
    ("zoom_to_object", "Zoom camera to focus on a specific object");
    ("save_view_image", "Save current PyMOL view as an image file");
    ("get_molecule_info", "Get information about molecules and selections");
    ("list_loaded_objects", "List all objects currently loaded in PyMOL") ].

Definition vision_tools : list (string * string) :=
  [ ("analyze_molecular_image", "Analyze a molecular image and extract visual features");
    ("annotate_molecular_image", "Add annotations to a molecular image");
    ("compare_molecular_images", "Compare two molecular images for similarity");
    ("get_image_info", "Get basic information about an image file") ].

Definition desktop_tools : list (string * string) :=
  [ ("get_desktop_info", "Get desktop screen information and mouse position");
    ("find_application_window", "Find application windows matching a title pattern");
    ("activate_application_window",
     "Activate and bring an application window to the foreground");
    ("click_at_coordinates", "Click at specified screen coordinates");
    ("type_keyboard_text", "Type text using the keyboard");
    ("press_keyboard_key", "Press a keyboard key");
    ("capture_screenshot", "Take a screenshot of the entire screen");
    ("get_current_mouse_position", "Get the current mouse cursor position");
    ("drag_mouse_coordinates", "Drag mouse from start position to end position") ].

Definition gui_tools : list (string * string) :=
  [ ("inspect_window_hierarchy", "Get the hierarchy of GUI elements in a window");
    ("find_clickable_elements", "Find clickable elements in a window");
    ("get_element_at_coordinates", "Get GUI element at specific screen coordinates");
    ("capture_window_state", "Capture the current state of a window");
    ("list_visible_windows", "List all visible windows");
    ("screenshot_window", "Take a screenshot of a specific window") ].

Definition integrated_tools : list (string * string) :=
  base_tools ++ pymol_tools ++ vision_tools ++ desktop_tools ++ gui_tools.

Definition entries_of (impl : string -> callable) (l : list (string * string))
  : list (string * callable * option string) :=
  map (fun e => (fst e, impl (fst e), Some (snd e))) l.

(** The registry of the integrated agent once its constructor has run. *)
Definition integrated_registry (impl : string -> callable) : ToolRegistry :=
  register_all (entries_of impl gui_tools)
    (register_all (entries_of impl desktop_tools)
       (register_all (entries_of impl vision_tools)
          (register_all (entries_of impl pymol_tools)
             (register_all (entries_of impl base_tools) empty_registry)))).

(** Pairwise different names, as a test. *)
Fixpoint distinct (l : list string) : bool :=
  match l with
  | [] => true
  | x :: rest => negb (existsb (String.eqb x) rest) && distinct rest
  end.


(* ================================================================== *)
(** * Properties *)

(** ** Strings *)

Module PyStrFacts.
Import PyStr.

Lemma prefix_app (p s : string) :
  String.prefix p s = true <-> exists t, s = (p ++ t)%string.
Proof.
  revert s; induction p as [|c p IH]; intros s; simpl.
  - split; [intros _; now exists s | intros _; now destruct s].
  - destruct s as [|d s].
    + split; [discriminate | intros [t Ht]; discriminate].
    + simpl. destruct (ascii_dec c d) as [->|Hne].
      * rewrite IH. split; intros [t Ht]; exists t; congruence.
      * split; [discriminate | intros [t Ht]; congruence].
Qed.

(** [contains] decides the substring relation. *)
Lemma contains_spec (needle hay : string) :
  contains needle hay = true <->
  exists pre post, hay = (pre ++ needle ++ post)%string.
Proof.
  induction hay as [|c hay IH]; cbn [contains]; rewrite orb_true_iff, prefix_app.
  - split.
    + intros [[t Ht]|H]; [|discriminate]. now exists EmptyString, t.
    + intros [pre [post H]]. left.
      destruct pre; [now exists post | discriminate].
  - rewrite IH. split.
    + intros [[t Ht]|[pre [post H]]].
      * now exists EmptyString, t.
      * exists (String c pre), post. simpl. now rewrite H.
    + intros [pre [post H]]. destruct pre as [|d pre]; simpl in H.
      * left. now exists post.
      * right. exists pre, post. congruence.
Qed.

Lemma split_from_blank (s : string) (cur : list ascii) :
  blank s -> split_from s cur = flush cur.
Proof.
  unfold blank. revert cur; induction s as [|c s IH]; intros cur H; simpl.
  - reflexivity.
  - simpl in H. inversion H as [|? ? Hc Hs]; subst.
    rewrite Hc, (IH [] Hs). simpl. now rewrite app_nil_r.
Qed.

(** A query made of separators only has no token. *)
Lemma split_blank (s : string) : blank s -> split s = [].
Proof. intros H. unfold split. now rewrite split_from_blank. Qed.

Lemma flush_tokens (cur : list ascii) (w : string) :
  Forall (fun c => is_space c = false) cur ->
  In w (flush cur) ->
  w <> EmptyString /\
  Forall (fun c => is_space c = false) (list_ascii_of_string w).
Proof.
  intros Hcur Hin. destruct cur as [|c cur]; [contradiction|].
  cbn [flush In] in Hin. destruct Hin as [<-|[]]. split.
  - intros H. apply (f_equal list_ascii_of_string) in H.
    rewrite list_ascii_of_string_of_list_ascii in H.
    apply (f_equal (@List.length ascii)) in H.
    rewrite length_rev in H. discriminate H.
  - rewrite list_ascii_of_string_of_list_ascii.
    apply Forall_rev. exact Hcur.
Qed.

Lemma split_from_tokens (s : string) (cur : list ascii) (w : string) :
  Forall (fun c => is_space c = false) cur ->
  In w (split_from s cur) ->
  w <> EmptyString /\
  Forall (fun c => is_space c = false) (list_ascii_of_string w).
Proof.
  revert cur. induction s as [|c s IH]; intros cur Hcur Hin; cbn in Hin.
  - now apply (flush_tokens cur).
  - destruct (is_space c) eqn:Ec.
    + apply in_app_or in Hin. destruct Hin as [Hin|Hin].
      * now apply (flush_tokens cur).
      * now apply (IH []).
    + apply (IH (c :: cur)); [now constructor | exact Hin].
Qed.

(** The tokens of [split] are whitespace-delimited words: none is empty
    and none holds a separator. *)
Lemma split_tokens (s w : string) :
  In w (split s) ->
  w <> EmptyString /\
  Forall (fun c => is_space c = false) (list_ascii_of_string w).
Proof. apply split_from_tokens. constructor. Qed.

End PyStrFacts.

(** ** Slices and the stable descending sort *)

Module PyListFacts.
Import PyList.

Section SliceFacts.
Context {A : Type}.

Lemma clamp_nonneg (len : nat) (i : Z) :
  (0 <= i)%Z -> clamp len i = Nat.min len (Z.to_nat i).
Proof.
  intros H. unfold clamp. cbv zeta.
  destruct (Z.ltb_spec i 0); [lia|].
  destruct (Z.ltb_spec i 0); [lia|].
  destruct (Z.ltb_spec (Z.of_nat len) i); lia.
Qed.

Lemma clamp_neg (len : nat) (i : Z) :
  (i < 0)%Z -> clamp len i = (len - Z.to_nat (- i))%nat.
Proof.
  intros H. unfold clamp. cbv zeta.
  destruct (Z.ltb_spec i 0); [|lia].
  destruct (Z.ltb_spec (i + Z.of_nat len) 0); [lia|].
  destruct (Z.ltb_spec (Z.of_nat len) (i + Z.of_nat len)); lia.
Qed.

(** [l[:stop]] for a bound that is not negative: the first [stop]
    elements. *)
Lemma slice_to_nonneg (stop : Z) (l : list A) :
  (0 <= stop)%Z -> slice_to stop l = firstn (Z.to_nat stop) l.
Proof.
  intros H. unfold slice_to. rewrite clamp_nonneg by exact H.
  destruct (Nat.le_ge_cases (List.length l) (Z.to_nat stop)) as [Hle|Hge].
  - rewrite Nat.min_l by exact Hle.
    rewrite firstn_all. symmetry. now apply firstn_all2.
  - now rewrite Nat.min_r by exact Hge.
Qed.

Lemma slice_to_all (stop : Z) (l : list A) :
  (Z.of_nat (List.length l) <= stop)%Z -> slice_to stop l = l.
Proof.
  intros H. rewrite slice_to_nonneg by lia. apply firstn_all2. lia.
Qed.

Lemma slice_to_nil (stop : Z) : slice_to stop (@nil A) = [].
Proof. unfold slice_to. apply firstn_nil. Qed.

Lemma slice_to_incl (stop : Z) (l : list A) (x : A) :
  In x (slice_to stop l) -> In x l.
Proof.
  unfold slice_to. intros H.
  rewrite <- (firstn_skipn (clamp (List.length l) stop) l).
  apply in_or_app. now left.
Qed.

(** [l[-n:]] for a positive [n]: what is left after dropping all but the
    last [n] elements. *)
Lemma slice_from_last (n : Z) (l : list A) :
  (0 < n)%Z ->
  slice_from (- n) l = skipn (List.length l - Z.to_nat n) l.
Proof.
  intros H. unfold slice_from. rewrite clamp_neg by lia.
  now rewrite Z.opp_involutive.
Qed.

End SliceFacts.

Section SortFacts.
Context {A : Type}.
Variable key : A -> Q.

Lemma insert_desc_perm (x : A) (l : list A) :
  Permutation (insert_desc key x l) (x :: l).
Proof.
  induction l as [|y l IH]; simpl.
  - reflexivity.
  - destruct (Qle_bool (key y) (key x)).
    + reflexivity.
    + rewrite IH. apply perm_swap.
Qed.

Lemma sorted_desc_perm (l : list A) : Permutation (sorted_desc key l) l.
Proof.
  induction l as [|x l IH]; simpl.
  - reflexivity.
  - rewrite insert_desc_perm. now constructor.
Qed.

Lemma insert_desc_sorted (x : A) (l : list A) :
  StronglySorted (desc key) l -> StronglySorted (desc key) (insert_desc key x l).
Proof.
  induction 1 as [|y l Hl IH Hy]; simpl.
  - repeat constructor.
  - destruct (Qle_bool (key y) (key x)) eqn:E.
    + apply Qle_bool_iff in E.
      constructor; [now constructor|].
      constructor; [exact E|].
      eapply Forall_impl; [|exact Hy].
      intros z Hz. unfold desc in *. eapply Qle_trans; eauto.
    + constructor; [exact IH|].
      eapply Permutation_Forall;
        [symmetry; apply insert_desc_perm|].
      constructor; [|exact Hy].
      unfold desc. apply Qlt_le_weak, Qnot_le_lt.
      intros Hle. apply Qle_bool_iff in Hle. congruence.
Qed.

Lemma sorted_desc_sorted (l : list A) : StronglySorted (desc key) (sorted_desc key l).
Proof.
  induction l as [|x l IH]; simpl.
  - constructor.
  - now apply insert_desc_sorted.
Qed.

(** Insertion moves [x] past elements of strictly larger key only, so the
    elements of any one key keep their order. *)
Lemma insert_desc_stable (k : Q) (x : A) (l : list A) :
  filter (has_key key k) (insert_desc key x l) = filter (has_key key k) (x :: l).
Proof.
  induction l as [|y l IH]; [reflexivity|].
  cbn [insert_desc].
  destruct (Qle_bool (key y) (key x)) eqn:E; [reflexivity|].
  cbn [filter] in *. rewrite IH.
  destruct (has_key key k x) eqn:Ex, (has_key key k y) eqn:Ey; try reflexivity.
  exfalso. unfold has_key in *.
  apply Qeq_bool_iff in Ex, Ey.
  assert (Hle : (key y <= key x)%Q) by (rewrite Ex, Ey; apply Qle_refl).
  apply Qle_bool_iff in Hle. congruence.
Qed.

Lemma sorted_desc_stable (k : Q) (l : list A) :
  filter (has_key key k) (sorted_desc key l) = filter (has_key key k) l.
Proof.
  induction l as [|x l IH]; [reflexivity|].
  cbn [sorted_desc]. rewrite insert_desc_stable.
  cbn [filter]. now rewrite IH.
Qed.

Lemma firstn_sorted (R : A -> A -> Prop) (n : nat) (l : list A) :
  StronglySorted R l -> StronglySorted R (firstn n l).
Proof.
  intros H. revert n. induction H as [|x l Hl IH Hx]; intros [|n]; simpl;
    try constructor.
  - apply IH.
  - apply Forall_forall. intros y Hy.
    rewrite Forall_forall in Hx. apply Hx.
    rewrite <- (firstn_skipn n l). apply in_or_app. now left.
Qed.

End SortFacts.

End PyListFacts.

(** ** Timestamps *)

Module DateTimeFacts.
Import DateTime.
Local Open Scope N_scope.





Lemma read_digits_length (w : nat) (s : string) (acc v : N) (rest : string) :
  read_digits w s acc = Some (v, rest) ->
  String.length s = (w + String.length rest)%nat.
Proof.
  revert s acc. induction w as [|w IH]; intros s acc; cbn [read_digits].
  - now intros [= _ <-].
  - destruct s as [|c s]; [discriminate|].
    destruct (digit_val c); [|discriminate].
    intros H. apply IH in H. cbn [String.length]. now rewrite H.
Qed.

Lemma expect_length (c : ascii) (s rest : string) :
  expect c s = Some rest -> String.length s = S (String.length rest).
Proof.
  unfold expect. destruct s as [|c' s]; [discriminate|].
  destruct (Ascii.eqb c c'); [|discriminate]. now intros [= <-].
Qed.

(** What [read_isoformat] reads is in range, and at least as long as a
    date. *)
Lemma read_isoformat_some (s : string) (d : datetime) :
  read_isoformat s = Some d ->
  valid d = true /\ (10 <= String.length s)%nat.
Proof.
  unfold read_isoformat.
  destruct (read_digits 4 s 0) as [[y s0]|] eqn:E1; [|discriminate].
  destruct (expect "-" s0) as [s1|] eqn:E2; [|discriminate].
  destruct (read_digits 2 s1 0) as [[mo s2]|] eqn:E3; [|discriminate].
  destruct (expect "-" s2) as [s3|] eqn:E4; [|discriminate].
  destruct (read_digits 2 s3 0) as [[dd s4]|] eqn:E5; [|discriminate].
  apply read_digits_length in E1, E3, E5. apply expect_length in E2, E4.
  intros H. split; [|lia]. revert H.
  repeat match goal with
         | |- context [match ?x with _ => _ end] =>
             destruct x eqn:?; try discriminate
         end.
  now intros [= <-].
Qed.

Lemma any_digit_none (w : nat) (s : string) :
  (forall c, In c (firstn w (list_ascii_of_string s)) -> digit_val c = None) ->
  any_digit w s = false.
Proof.
  revert s. induction w as [|w IH]; intros [|c s] H; try reflexivity.
  cbn [any_digit]. cbn [list_ascii_of_string firstn In] in H.
  rewrite (H c (or_introl eq_refl)). apply IH. intros c' Hc'. apply H. now right.
Qed.

Lemma read_digits_any_digit (w : nat) (s : string) (acc v : N) (rest : string) :
  read_digits (S w) s acc = Some (v, rest) -> any_digit (S w) s = true.
Proof.
  cbn [read_digits any_digit]. destruct s as [|c s]; [discriminate|].
  now destruct (digit_val c).
Qed.

(** What [fromisoformat] refuses is not in the layout of [isoformat]. *)
Lemma fromisoformat_refused (s : string) :
  (String.length s < 7)%nat \/ any_digit 4 s = false ->
  fromisoformat s = Refused.
Proof.
  intros H. unfold fromisoformat.
  destruct (read_isoformat s) as [d|] eqn:Er.
  - exfalso. pose proof (read_isoformat_some s d Er) as [_ Hlen].
    destruct H as [H|H]; [lia|].
    unfold read_isoformat in Er.
    destruct (read_digits 4 s 0) as [[y s0]|] eqn:E1; [|discriminate].
    apply read_digits_any_digit in E1. congruence.
  - destruct H as [H|H].
    + apply Nat.ltb_lt in H. now rewrite H.
    + rewrite H. cbn [negb]. now rewrite orb_true_r.
Qed.


End DateTimeFacts.

(** ** The memory manager: capacity, eviction and the long-term archive *)

Lemma evict_oldest_max (self : MemorySystem) :
  max_short_term (evict_oldest self) = max_short_term self.
Proof.
  unfold evict_oldest.
  destruct (max_short_term self <? _)%Z; [|reflexivity].
  destruct (PyList.pop0 (short_term self)) as [[oldest rest]|]; [|reflexivity].
  now destruct (Qle_bool promotion_threshold (importance oldest)).
Qed.

(** What [evict_oldest] does to a buffer that is over its capacity. *)
Lemma evict_oldest_over (self : MemorySystem) (oldest : MemoryItem)
    (rest : list MemoryItem) :
  short_term self = oldest :: rest ->
  (max_short_term self < Z.of_nat (List.length (short_term self)))%Z ->
  short_term (evict_oldest self) = rest /\
  long_term (evict_oldest self) =
    long_term self ++
    (if Qle_bool promotion_threshold (importance oldest) then [oldest] else []).
Proof.
  intros Hs Hover. unfold evict_oldest.
  destruct (Z.ltb_spec (max_short_term self)
                       (Z.of_nat (List.length (short_term self)))); [|lia].
  rewrite Hs. cbn [PyList.pop0].
  destruct (Qle_bool promotion_threshold (importance oldest)); cbn.
  - now split.
  - now rewrite app_nil_r.
Qed.

Lemma evict_oldest_within (self : MemorySystem) :
  (Z.of_nat (List.length (short_term self)) <= max_short_term self)%Z ->
  evict_oldest self = self.
Proof.
  intros H. unfold evict_oldest.
  destruct (Z.ltb_spec (max_short_term self)
                       (Z.of_nat (List.length (short_term self)))); [lia|].
  reflexivity.
Qed.

Lemma evict_oldest_long_term (self : MemorySystem) :
  exists added, long_term (evict_oldest self) = long_term self ++ added.
Proof.
  unfold evict_oldest.
  destruct (max_short_term self <? _)%Z;
    [|exists []; now rewrite app_nil_r].
  destruct (PyList.pop0 (short_term self)) as [[oldest rest]|];
    [|exists []; now rewrite app_nil_r].
  destruct (Qle_bool promotion_threshold (importance oldest)); cbn.
  - now exists [oldest].
  - exists []; now rewrite app_nil_r.
Qed.

Lemma add_short_term_capacity (self : MemorySystem) (st : Store.store)
    (now : datetime) (text : string) (weight : Q) (labels : option (list string)) :
  capacity_respected self ->
  capacity_respected (fst (add_short_term self st now text weight labels)).
Proof.
  unfold capacity_respected, add_short_term. cbn [fst]. intros H.
  set (appended := mkMemorySystem _ _ _).
  rewrite evict_oldest_max.
  destruct (Z.ltb_spec (max_short_term appended)
                       (Z.of_nat (List.length (short_term appended))))
    as [Hover|Hfit].
  - destruct (short_term appended) as [|oldest rest] eqn:E.
    + subst appended. cbn in E. now destruct (short_term self).
    + destruct (evict_oldest_over appended oldest rest E) as [-> _].
      * now rewrite E.
      * assert (Hlen : List.length (short_term appended)
                       = S (List.length (short_term self))).
        { subst appended. cbn. rewrite length_app. cbn. lia. }
        rewrite E in Hlen. cbn in Hlen. subst appended. cbn in *. lia.
  - rewrite evict_oldest_within by exact Hfit. exact Hfit.
Qed.

Lemma step_max (o : op) (s : MemorySystem * Store.store) :
  max_short_term (fst (step o s)) = max_short_term (fst s).
Proof.
  destruct o; cbn; try reflexivity.
  now rewrite evict_oldest_max.
Qed.

Lemma run_max (ops : list op) (s : MemorySystem * Store.store) :
  max_short_term (fst (run ops s)) = max_short_term (fst s).
Proof.
  revert s. induction ops as [|o ops IH]; intros s; cbn [run].
  - reflexivity.
  - now rewrite IH, step_max.
Qed.

Lemma step_capacity (o : op) (s : MemorySystem * Store.store) :
  capacity_respected (fst s) -> capacity_respected (fst (step o s)).
Proof.
  destruct o; cbn [step]; intros H; try exact H.
  now apply add_short_term_capacity.
Qed.

Lemma run_capacity (ops : list op) (s : MemorySystem * Store.store) :
  capacity_respected (fst s) -> capacity_respected (fst (run ops s)).
Proof.
  revert s. induction ops as [|o ops IH]; intros s H; cbn [run].
  - exact H.
  - apply IH. now apply step_capacity.
Qed.

Lemma step_long_term (o : op) (s : MemorySystem * Store.store) :
  exists added, long_term (fst (step o s)) = long_term (fst s) ++ added.
Proof.
  destruct o; cbn [step add_short_term add_long_term fst].
  - set (appended := mkMemorySystem _ _ _).
    apply (evict_oldest_long_term appended).
  - cbn. eexists. reflexivity.
  - exists []. now rewrite app_nil_r.
  - exists []. now rewrite app_nil_r.
Qed.

Lemma run_long_term (ops : list op) (s : MemorySystem * Store.store) :
  exists added, long_term (fst (run ops s)) = long_term (fst s) ++ added.
Proof.
  revert s. induction ops as [|o ops IH]; intros s; cbn [run].
  - exists []. now rewrite app_nil_r.
  - destruct (IH (step o s)) as [a2 H2].
    destruct (step_long_term o s) as [a1 H1].
    exists (a1 ++ a2). now rewrite H2, H1, app_assoc.
Qed.

(** The constructor leaves the short-term buffer empty and keeps the
    capacity it was given. *)
Lemma init_short_term (cap : Z) (st : Store.store) (self : MemorySystem) :
  __init__ cap st = Built self ->
  short_term self = [] /\ max_short_term self = cap.
Proof.
  unfold __init__, _load_memory. cbn [max_short_term short_term].
  destruct (Store.contents st); try discriminate;
    try (intros [= <-]; now split);
    match goal with
    | |- context [read_items ?f] => destruct (read_items f) as [e|raws]
    end; try (intros [= <-]; now split);
    (destruct (typed_all raws); [intros [= <-]; now split | discriminate]).
Qed.

(** C1. When appending in [add_short_term] takes the buffer over
    [max_short_term], exactly the item at index 0 leaves [short_term]; it
    is appended once to [long_term] when its importance is at least the
    threshold 0.7, and otherwise it is dropped: [long_term] is as before,
    and the two sequences together hold one occurrence less of it. *)
Theorem add_short_term_eviction (self : MemorySystem) (st : Store.store)
    (now : datetime) (text : string) (weight : Q) (labels : option (list string)) :
  let item := new_item now text weight labels in
  let self' := fst (add_short_term self st now text weight labels) in
  (max_short_term self < Z.of_nat (List.length (short_term self ++ [item])))%Z ->
  exists oldest,
    nth_error (short_term self ++ [item]) 0 = Some oldest /\
    short_term self ++ [item] = oldest :: short_term self' /\
    ((promotion_threshold <= importance oldest)%Q ->
       long_term self' = long_term self ++ [oldest] /\
       Permutation (short_term self' ++ long_term self')
                   ((short_term self ++ [item]) ++ long_term self)) /\
    ((importance oldest < promotion_threshold)%Q ->
       long_term self' = long_term self /\
       Permutation (oldest :: short_term self' ++ long_term self')
                   ((short_term self ++ [item]) ++ long_term self)).
Proof.
  intros item self' Hover. subst self'.
  unfold add_short_term. cbn [fst]. fold item.
  set (appended := mkMemorySystem _ _ _).
  assert (exists oldest rest, short_term self ++ [item] = oldest :: rest)
    as (oldest & rest & E)
    by (destruct (short_term self); cbn; eauto).
  exists oldest.
  destruct (evict_oldest_over appended oldest rest E Hover) as [Hs Hl].
  subst appended. cbn [long_term] in Hl. rewrite Hs, Hl, E.
  split; [reflexivity|]. split; [reflexivity|]. split.
  - intros Hge. apply Qle_bool_iff in Hge. rewrite Hge. split; [reflexivity|].
    symmetry. cbn [app]. rewrite app_assoc. apply Permutation_cons_append.
  - intros Hlt.
    destruct (Qle_bool promotion_threshold (importance oldest)) eqn:Q.
    + apply Qle_bool_iff in Q. exfalso. exact (Qlt_not_le _ _ Hlt Q).
    + rewrite app_nil_r. split; reflexivity.
Qed.

Lemma add_short_term_eviction_witness :
  let self := mkMemorySystem 1 [mkMemoryItem sample_time "A" (8 # 10) []] [] in
  exists oldest,
    nth_error (short_term self ++ [new_item sample_time "B" 1 None]) 0
      = Some oldest /\
    importance oldest = (8 # 10)%Q.
Proof.
  intros self.
  destruct (add_short_term_eviction self empty_store sample_time "B" 1 None)
    as (oldest & Hn & _).
  - cbn. lia.
  - exists oldest. split; [exact Hn|].
    cbn in Hn. now injection Hn as <-.
Defined.

(** C2, as stated, fails: a manager built with a negative capacity has
    [len(short_term) = 0 > max_short_term] after any call. *)
Lemma capacity_claim_counterexample :
  ~ (forall (cap : Z) (st : Store.store) (self : MemorySystem) (ops : list op),
       __init__ cap st = Built self ->
       capacity_respected (fst (run ops (self, st)))).
Proof.
  intros H.
  specialize (H (-1)%Z empty_store (mkMemorySystem (-1) [] [])
                [AddShortTerm sample_time "x" 1 None] eq_refl).
  unfold capacity_respected in H. cbn in H. lia.
Qed.

(** C2 (amended). For a manager built with a capacity that is not
    negative, [len(short_term) <= max_short_term] holds after every
    sequence of operations ([add_short_term], [add_long_term],
    [search_memory], [get_context]), hence after each call. *)
Theorem capacity_invariant (cap : Z) (st : Store.store) (self : MemorySystem)
    (ops : list op) :
  (0 <= cap)%Z ->
  __init__ cap st = Built self ->
  capacity_respected (fst (run ops (self, st))) /\
  max_short_term (fst (run ops (self, st))) = cap.
Proof.
  intros Hcap Hinit.
  destruct (init_short_term cap st self Hinit) as [Hs Hm].
  split.
  - apply run_capacity. unfold capacity_respected. cbn [fst].
    rewrite Hs, Hm. cbn. exact Hcap.
  - now rewrite run_max.
Qed.

Lemma capacity_invariant_witness :
  capacity_respected
    (fst (run [AddShortTerm sample_time "A" (1 # 2) None;
               AddShortTerm sample_time "B" (9 # 10) None;
               GetContext 5;
               AddShortTerm sample_time "C" (3 # 10) None]
              (mkMemorySystem 2 [] [], empty_store))).
Proof.
  apply (capacity_invariant 2 empty_store (mkMemorySystem 2 [] [])).
  - lia.
  - reflexivity.
Defined.

(** C9. [add_long_term] appends exactly one item at the end of
    [long_term]: the item has the clock reading as its timestamp and the
    given content, importance and tags (no tags when none are given);
    [short_term] and the capacity are as they were. *)
Theorem add_long_term_appends (self : MemorySystem) (st : Store.store)
    (now : datetime) (text : string) (weight : Q) (labels : option (list string)) :
  let self' := fst (add_long_term self st now text weight labels) in
  (forall given, labels = Some given ->
     long_term self' = long_term self ++ [mkMemoryItem now text weight given]) /\
  (labels = None ->
     long_term self' = long_term self ++ [mkMemoryItem now text weight []]) /\
  List.length (long_term self') = S (List.length (long_term self)) /\
  short_term self' = short_term self /\
  max_short_term self' = max_short_term self.
Proof.
  cbn [add_long_term fst long_term short_term max_short_term].
  repeat split.
  - now intros given ->.
  - now intros ->.
  - rewrite length_app. cbn. lia.
Qed.

Lemma add_long_term_appends_witness :
  long_term (fst (add_long_term two_notes empty_store sample_time
                    "binding site analysis" 1 (Some ["pymol"; "site"])))
  = [note "2";
     mkMemoryItem sample_time "binding site analysis" 1 ["pymol"; "site"]].
Proof.
  apply (add_long_term_appends two_notes empty_store sample_time
           "binding site analysis" 1 (Some ["pymol"; "site"])).
  reflexivity.
Defined.

(** C10. Every operation leaves the previous [long_term] as a prefix of
    the new one, and so does every sequence of operations. *)
Theorem long_term_append_only :
  (forall (o : op) (s : MemorySystem * Store.store),
     exists added, long_term (fst (step o s)) = long_term (fst s) ++ added) /\
  (forall (ops : list op) (s : MemorySystem * Store.store),
     exists added, long_term (fst (run ops s)) = long_term (fst s) ++ added).
Proof. split; [exact step_long_term | exact run_long_term]. Qed.

(** ** [search_memory] *)

Lemma relevant_to_spec (query : string) (mem : MemoryItem) :
  relevant_to query mem = true <-> mentions query mem.
Proof.
  unfold relevant_to, mentions. rewrite existsb_exists.
  split; intros [word [Hin H]]; exists word; split; trivial;
    now apply PyStrFacts.contains_spec.
Qed.

Lemma search_memory_unfold (self : MemorySystem) (query : string) (limit : Z) :
  search_memory self query limit =
  PyList.slice_to limit
    (PyList.sorted_desc importance
       (filter (relevant_to query) (candidates self))).
Proof. reflexivity. Qed.

(** C3, as stated, fails: with six matching items and the default limit
    of 5 the sixth match is not returned. *)
Lemma search_claim_counterexample :
  ~ (forall (self : MemorySystem) (query : string) (limit : Z) (m : MemoryItem),
       In m (search_memory self query limit) <->
       In m (candidates self) /\ mentions query m).
Proof.
  intros H.
  destruct (H six_notes "note" 5%Z (note "6")) as [_ Hback].
  assert (Hin : In (note "6") (search_memory six_notes "note" 5)).
  { apply Hback. split.
    - do 5 right. left. reflexivity.
    - apply relevant_to_spec. vm_compute. reflexivity. }
  vm_compute in Hin.
  repeat (destruct Hin as [Hin|Hin]; [discriminate Hin|]).
  exact Hin.
Qed.

(** C3 (amended). [search_memory] returns only items of
    [short_term + long_term] whose content contains, case-insensitively,
    a whitespace-delimited token of the query; it returns every such item
    (each as often as it occurs) whenever the matches are no more than
    [limit]; and the tags of an item play no part in the match. *)
Theorem search_memory_matches (self : MemorySystem) (query : string) (limit : Z) :
  (forall m, In m (search_memory self query limit) ->
             In m (candidates self) /\ mentions query m) /\
  ((Z.of_nat (List.length (filter (relevant_to query) (candidates self)))
      <= limit)%Z ->
   Permutation (search_memory self query limit)
               (filter (relevant_to query) (candidates self)) /\
   forall m, In m (candidates self) -> mentions query m ->
             In m (search_memory self query limit)) /\
  (forall m, relevant_to query m = true <-> mentions query m) /\
  (forall m labels,
     relevant_to query
       (mkMemoryItem (timestamp m) (content m) (importance m) labels)
     = relevant_to query m).
Proof.
  rewrite search_memory_unfold.
  set (hits := filter (relevant_to query) (candidates self)).
  assert (Hperm : Permutation (PyList.sorted_desc importance hits) hits)
    by apply PyListFacts.sorted_desc_perm.
  split; [|split; [|split]].
  - intros m Hm. apply PyListFacts.slice_to_incl in Hm.
    apply (Permutation_in _ Hperm) in Hm.
    subst hits. apply filter_In in Hm. destruct Hm as [Hc Hr].
    split; [exact Hc | now apply relevant_to_spec].
  - intros Hfit.
    rewrite PyListFacts.slice_to_all
      by (rewrite (Permutation_length Hperm); exact Hfit).
    split; [exact Hperm|].
    intros m Hc Hm. apply (Permutation_in _ (Permutation_sym Hperm)).
    subst hits. apply filter_In. split; [exact Hc | now apply relevant_to_spec].
  - intros m. apply relevant_to_spec.
  - reflexivity.
Qed.

Lemma search_memory_matches_witness :
  Permutation (search_memory six_notes "NOTE 7" 6)
              (filter (relevant_to "NOTE 7") (candidates six_notes)).
Proof.
  destruct (search_memory_matches six_notes "NOTE 7" 6) as (_ & Hall & _).
  destruct Hall as [Hperm _].
  - vm_compute. discriminate.
  - exact Hperm.
Defined.

(** C4, as stated, fails: for a negative [limit] the slice [[:limit]]
    drops entries from the end instead of keeping the first [limit]. *)
Lemma ranking_claim_counterexample :
  ~ (forall (self : MemorySystem) (query : string) (limit : Z),
       exists ranked,
         Permutation ranked (filter (relevant_to query) (candidates self)) /\
         StronglySorted (desc importance) ranked /\
         search_memory self query limit = firstn (Z.to_nat limit) ranked).
Proof.
  intros H.
  destruct (H two_notes "note" (-1)%Z) as (ranked & _ & _ & Heq).
  vm_compute in Heq. discriminate Heq.
Qed.

(** C4 (amended). For a [limit] that is not negative, [search_memory]
    returns the first [limit] entries of the matches ranked by importance
    in descending order, matches of equal importance keeping the relative
    order they had in [short_term + long_term]; the returned sequence is
    itself in descending order of importance. *)
Theorem search_memory_ranking (self : MemorySystem) (query : string) (limit : Z) :
  (0 <= limit)%Z ->
  let hits := filter (relevant_to query) (candidates self) in
  let ranked := PyList.sorted_desc importance hits in
  Permutation ranked hits /\
  StronglySorted (desc importance) ranked /\
  (forall k, filter (has_key importance k) ranked =
             filter (has_key importance k) hits) /\
  search_memory self query limit = firstn (Z.to_nat limit) ranked /\
  StronglySorted (desc importance) (search_memory self query limit).
Proof.
  intros Hlimit hits ranked.
  assert (Heq : search_memory self query limit = firstn (Z.to_nat limit) ranked).
  { rewrite search_memory_unfold. now apply PyListFacts.slice_to_nonneg. }
  repeat split.
  - apply PyListFacts.sorted_desc_perm.
  - apply PyListFacts.sorted_desc_sorted.
  - intros k. apply PyListFacts.sorted_desc_stable.
  - exact Heq.
  - rewrite Heq. apply PyListFacts.firstn_sorted.
    apply PyListFacts.sorted_desc_sorted.
Qed.

Lemma search_memory_ranking_witness :
  map content (search_memory ranked_notes "note" 3) =
  ["note d"; "note b"; "note a"].
Proof.
  destruct (search_memory_ranking ranked_notes "note" 3) as (_ & _ & _ & -> & _).
  - lia.
  - vm_compute. reflexivity.
Defined.

(** C8. An empty query, and a query made of whitespace only, match
    nothing: [search_memory] returns the empty list whatever is stored
    and whatever the limit. *)
Theorem search_memory_blank (self : MemorySystem) (query : string) (limit : Z) :
  blank query -> search_memory self query limit = [].
Proof.
  intros Hblank. unfold search_memory.
  assert (Hnone : forall l, filter (relevant_to query) l = []).
  { intros l. induction l as [|m l IH]; [reflexivity|].
    cbn [filter]. unfold relevant_to at 1.
    rewrite (PyStrFacts.split_blank query Hblank). cbn [existsb]. exact IH. }
  rewrite Hnone. cbn [PyList.sorted_desc]. apply PyListFacts.slice_to_nil.
Qed.

Lemma search_memory_blank_witness :
  search_memory six_notes "" 5 = [] /\
  search_memory six_notes (String " " (String "009" (String "010" " "))) 5 = [].
Proof.
  split; apply search_memory_blank; repeat constructor.
Defined.

(** ** [get_context] *)

Lemma pad_two (n : N) (tl : string) :
  pad 2 n tl = (two_digits n ++ tl)%string.
Proof.
  unfold two_digits. cbn [pad String.append].
  change (10 ^ N.of_nat 1)%N with 10%N. change (10 ^ N.of_nat 0)%N with 1%N.
  now rewrite N.div_1_r.
Qed.

Lemma context_line_rendered (mem : MemoryItem) :
  context_line mem = rendered mem.
Proof.
  unfold context_line, rendered, strftime_HM.
  rewrite !pad_two. unfold two_digits. cbn [String.append]. reflexivity.
Qed.

(** C5, as stated, fails: [short_term[-0:]] is the whole buffer, so a
    limit of 0 returns every line instead of none. *)
Lemma context_claim_counterexample :
  ~ (forall (self : MemorySystem) (limit : Z),
       get_context self limit =
       match short_term self with
       | [] => "No previous context."
       | _ :: _ =>
           PyStr.join newline
             (map rendered (last_items (Z.to_nat limit) (short_term self)))
       end).
Proof.
  intros H. specialize (H two_notes 0%Z).
  vm_compute in H. discriminate H.
Qed.

(** C5 (amended). [get_context] returns ["No previous context."] when
    [short_term] is empty; otherwise, for a limit of at least 1, it
    returns the last [limit] items of [short_term], oldest first, each as
    a line ["[HH:MM] <content>"], joined by newlines. *)
Theorem get_context_lines (self : MemorySystem) (limit : Z) :
  (short_term self = [] -> get_context self limit = "No previous context.") /\
  (short_term self <> [] -> (0 < limit)%Z ->
   get_context self limit =
   PyStr.join newline
     (map rendered (last_items (Z.to_nat limit) (short_term self)))).
Proof.
  unfold get_context. split.
  - now intros ->.
  - intros Hne Hpos. destruct (short_term self) as [|m l] eqn:E; [easy|].
    rewrite PyListFacts.slice_from_last by exact Hpos.
    unfold last_items, newline. f_equal.
    apply map_ext. exact context_line_rendered.
Qed.

Lemma get_context_lines_witness :
  get_context six_notes 2 =
  ("[07:05] note 5" ++ newline ++ "[07:05] note 6")%string.
Proof.
  destruct (get_context_lines six_notes 2) as [_ H].
  rewrite H.
  - vm_compute. reflexivity.
  - discriminate.
  - lia.
Defined.

(** ** Persistence *)








(** A record that raises stops the comprehension wherever it stands. *)
Lemma build_items_raises (good rest : list Json.value) (bad : Json.value)
    (e : exn) :
  build_item bad = inl e ->
  exists e', build_items (good ++ bad :: rest) = inl e'.
Proof.
  intros Hbad. induction good as [|g good [e' IH]]; cbn [app build_items].
  - rewrite Hbad. now exists e.
  - destruct (build_item g) as [eg|r]; [now exists eg|].
    rewrite IH. now exists e'.
Qed.

Lemma bad_timestamp_raises (v : Json.value) :
  bad_timestamp v -> exists e, parse_timestamp v = inl e.
Proof.
  destruct v as [| | |s| |]; cbn [bad_timestamp parse_timestamp];
    try (intros _; now exists TypeError).
  intros Hbad. exists ValueError.
  rewrite DateTimeFacts.fromisoformat_refused; [reflexivity|].
  destruct Hbad as [Hshort|Hyear]; [now left|right].
  now apply DateTimeFacts.any_digit_none.
Qed.

Lemma malformed_raises (item : Json.value) :
  malformed item -> exists e, build_item item = inl e.
Proof.
  intros (fields & -> & H). unfold build_item, getitem.
  destruct (Json.lookup "timestamp" fields) as [ts|] eqn:Ets; [|eauto].
  destruct (parse_timestamp ts) as [e|d] eqn:Ep; [eauto|].
  destruct H as [(k & Hk & Hnone) | (v & [= <-] & Hbad)].
  - destruct (Json.lookup "content" fields) eqn:Ec; [|eauto].
    destruct (Json.lookup "importance" fields) eqn:Ei; [|eauto].
    destruct (Json.lookup "tags" fields) eqn:Et; [|eauto].
    exfalso. cbn in Hk.
    repeat (destruct Hk as [<-|Hk]; [congruence|]). exact Hk.
  - destruct (bad_timestamp_raises ts Hbad) as [e He]. congruence.
Qed.




(** Where the existence test returns, a failing load is caught: whenever
    the [try] block of [_load_memory] raises, the constructor returns,
    and the manager it returns has an empty [long_term]. This is so for
    an unreadable file, for unparsable content, and for a document with a
    malformed record, whatever records stand before or after it: none of
    them is kept. *)
Lemma load_failure_caught (cap : Z) (st : Store.store) :
  (Store.contents st <> Store.Inaccessible ->
   (exists e, read_items (Store.contents st) = inl e) ->
   __init__ cap st = Built (empty_manager cap)) /\
  (Store.contents st = Store.Unreadable \/
   Store.contents st = Store.Malformed \/
   (exists good bad rest,
      Store.contents st = Store.Document (Json.Arr (good ++ bad :: rest)) /\
      malformed bad) ->
   exists e, read_items (Store.contents st) = inl e).
Proof.
  split.
  - intros Ha [e He]. unfold __init__, _load_memory.
    destruct (Store.contents st); try congruence; try reflexivity;
      now rewrite He.
  - intros [-> | [-> | (good & bad & rest & -> & Hbad)]].
    + now exists OSError.
    + now exists JSONDecodeError.
    + destruct (malformed_raises bad Hbad) as [e He].
      cbn [read_items iterate].
      exact (build_items_raises good rest bad e He).
Qed.

Lemma load_failure_caught_example :
  __init__ 10 (Store.mkStore
                 (Store.Document (Json.Arr [good_record; record_without_tags]))
                 true)
  = Built (empty_manager 10).
Proof.
  apply load_failure_caught.
  - discriminate.
  - exists (KeyError "tags"). reflexivity.
Qed.

(** C7. The claim fails where the existence test itself raises: the test
    [self.memory_file.exists()] of line 100 stands before the [try] of
    line 101, so for a path that cannot be examined the [OSError] leaves
    the constructor, whatever the capacity. *)
Theorem constructor_raises_before_try (cap : Z) (w : bool) :
  __init__ cap (Store.mkStore Store.Inaccessible w) = Raises OSError.
Proof. reflexivity. Qed.

(* ================================================================== *)
(** * Further properties of the memory manager *)

Lemma add_short_term_room (self : MemorySystem) (st : Store.store)
    (now : datetime) (text : string) (weight : Q) (labels : option (list string)) :
  (Z.of_nat (List.length (short_term self)) < max_short_term self)%Z ->
  short_term (fst (add_short_term self st now text weight labels))
    = short_term self ++ [new_item now text weight labels] /\
  long_term (fst (add_short_term self st now text weight labels))
    = long_term self.
Proof.
  intros Hroom. unfold add_short_term. cbn [fst].
  rewrite evict_oldest_within; [now split|].
  cbn [short_term max_short_term]. rewrite length_app. cbn. lia.
Qed.

(** X1. An [add_short_term] that does not take the buffer over its
    capacity evicts nothing: the new item is appended to [short_term] and
    [long_term] is as before. *)
Theorem add_short_term_no_eviction (self : MemorySystem) (st : Store.store)
    (now : datetime) (text : string) (weight : Q) (labels : option (list string)) :
  (Z.of_nat (List.length (short_term self)) < max_short_term self)%Z ->
  let self' := fst (add_short_term self st now text weight labels) in
  short_term self' = short_term self ++ [new_item now text weight labels] /\
  long_term self' = long_term self.
Proof. intros Hroom self'. now apply add_short_term_room. Qed.

Lemma add_short_term_no_eviction_witness :
  short_term (fst (add_short_term two_notes empty_store sample_time "B" 1 None))
  = [note "1"; new_item sample_time "B" 1 None].
Proof.
  apply (add_short_term_no_eviction two_notes empty_store sample_time "B" 1 None).
  cbn. lia.
Defined.

Lemma last_items_cons {A : Type} (n : nat) (x : A) (l : list A) :
  (n <= List.length l)%nat -> last_items n (x :: l) = last_items n l.
Proof.
  intros H. unfold last_items. cbn [List.length].
  replace (S (List.length l) - n)%nat with (S (List.length l - n)) by lia.
  reflexivity.
Qed.

Lemma last_items_all {A : Type} (n : nat) (l : list A) :
  (List.length l <= n)%nat -> last_items n l = l.
Proof.
  intros H. unfold last_items.
  replace (List.length l - n)%nat with 0%nat by lia. reflexivity.
Qed.

(** The state after a run of [add_short_term] calls, from any state that
    respects its capacity. *)
Lemma add_short_term_run (args : list short_term_args) (self : MemorySystem)
    (st : Store.store) :
  capacity_respected self ->
  let s' := run (map add_short_term_op args) (self, st) in
  let all := short_term self ++ map item_of args in
  let cap := Z.to_nat (max_short_term self) in
  short_term (fst s') = last_items cap all /\
  long_term (fst s') =
    long_term self ++ filter important (firstn (List.length all - cap) all).
Proof.
  revert self st. induction args as [|a args IH]; intros self st Hcap.
  - cbn [map run fst]. rewrite app_nil_r.
    unfold capacity_respected in Hcap.
    rewrite last_items_all by lia.
    replace (_ - _)%nat with 0%nat by lia.
    cbn. now rewrite app_nil_r.
  - destruct a as [[[now text] weight] labels].
    cbn [map add_short_term_op run step fst snd item_of].
    set (s1 := add_short_term self st now text weight labels).
    assert (Hcap1 : capacity_respected (fst s1))
      by (now apply add_short_term_capacity).
    assert (Hmax : max_short_term (fst s1) = max_short_term self).
    { subst s1. unfold add_short_term. cbn [fst]. now rewrite evict_oldest_max. }
    specialize (IH (fst s1) (snd s1) Hcap1).
    rewrite <- surjective_pairing in IH. cbv zeta in IH.
    destruct IH as [IHs IHl]. rewrite IHs, IHl, Hmax. clear IHs IHl.
    set (item := new_item now text weight labels).
    set (cap := Z.to_nat (max_short_term self)).
    destruct (Z.ltb_spec (Z.of_nat (List.length (short_term self)))
                         (max_short_term self)) as [Hroom|Hfull].
    + destruct (add_short_term_room self st now text weight labels Hroom)
        as [Hs Hl].
      fold s1 item in Hs, Hl. rewrite Hs, Hl, <- app_assoc. now split.
    + unfold capacity_respected in Hcap.
      assert (Hover : (max_short_term self <
                       Z.of_nat (List.length (short_term self ++ [item])))%Z)
        by (rewrite length_app; cbn; lia).
      assert (exists oldest rest, short_term self ++ [item] = oldest :: rest)
        as (oldest & rest & E)
        by (destruct (short_term self); cbn; eauto).
      destruct (evict_oldest_over
                  (mkMemorySystem (max_short_term self)
                                  (short_term self ++ [item]) (long_term self))
                  oldest rest E Hover) as [Hs Hl].
      cbn [long_term] in Hl.
      change (short_term (fst s1) = rest) in Hs.
      change (long_term (fst s1) = long_term self ++
                (if important oldest then [oldest] else [])) in Hl.
      rewrite Hs, Hl.
      assert (Hlen : List.length rest = cap).
      { apply (f_equal (@List.length _)) in E.
        rewrite length_app in E. cbn in E. subst cap. lia. }
      assert (Hall : short_term self ++ item :: map item_of args
                     = oldest :: rest ++ map item_of args).
      { change (item :: map item_of args) with ([item] ++ map item_of args).
        now rewrite app_assoc, E. }
      rewrite Hall.
      rewrite last_items_cons by (rewrite length_app; lia).
      split; [reflexivity|].
      cbn [List.length].
      replace (S (List.length (rest ++ map item_of args)) - cap)%nat
        with (S (List.length (rest ++ map item_of args) - cap))
        by (rewrite length_app; lia).
      cbn [firstn filter]. rewrite <- app_assoc.
      now destruct (important oldest).
Qed.

(** X2. Sliding window. After any number of [add_short_term] calls on a
    manager whose buffer was empty and whose capacity is not negative,
    [short_term] holds the last [max_short_term] items added, oldest
    first, and [long_term] has gained, in the order they were added, the
    important ones among the items that no longer fit. *)
Theorem short_term_sliding_window (args : list short_term_args)
    (self : MemorySystem) (st : Store.store) :
  (0 <= max_short_term self)%Z ->
  short_term self = [] ->
  let self' := fst (run (map add_short_term_op args) (self, st)) in
  let items := map item_of args in
  let cap := Z.to_nat (max_short_term self) in
  short_term self' = last_items cap items /\
  long_term self' =
    long_term self ++ filter important (firstn (List.length items - cap) items).
Proof.
  intros Hcap Hempty.
  destruct (add_short_term_run args self st) as [Hs Hl].
  - unfold capacity_respected. rewrite Hempty. cbn. exact Hcap.
  - rewrite Hempty in Hs, Hl. cbn [app] in Hs, Hl. now split.
Qed.

Lemma short_term_sliding_window_witness :
  let self' :=
    fst (run (map add_short_term_op
                [(sample_time, "A", (1 # 2)%Q, None);
                 (sample_time, "B", (9 # 10)%Q, None);
                 (sample_time, "C", (3 # 10)%Q, None);
                 (sample_time, "D", 1%Q, None)])
             (mkMemorySystem 2 [] [], empty_store)) in
  map content (short_term self') = ["C"; "D"] /\
  map content (long_term self') = ["B"].
Proof.
  intros self'.
  destruct (short_term_sliding_window
              [(sample_time, "A", (1 # 2)%Q, None);
               (sample_time, "B", (9 # 10)%Q, None);
               (sample_time, "C", (3 # 10)%Q, None);
               (sample_time, "D", 1%Q, None)]
              (mkMemorySystem 2 [] []) empty_store) as [Hs Hl].
  - cbn. lia.
  - reflexivity.
  - subst self'. rewrite Hs, Hl. split; reflexivity.
Defined.

(** X3. [search_memory] never returns more items than there are
    candidates, and for a limit that is not negative never more than
    [limit]. *)
Theorem search_memory_bounded (self : MemorySystem) (query : string) (limit : Z) :
  (List.length (search_memory self query limit)
     <= List.length (candidates self))%nat /\
  ((0 <= limit)%Z ->
   (Z.of_nat (List.length (search_memory self query limit)) <= limit)%Z).
Proof.
  rewrite search_memory_unfold.
  set (hits := filter (relevant_to query) (candidates self)).
  assert (Hhits : (List.length (PyList.sorted_desc importance hits)
                   <= List.length (candidates self))%nat).
  { rewrite (Permutation_length (PyListFacts.sorted_desc_perm importance hits)).
    apply filter_length_le. }
  split.
  - unfold PyList.slice_to. rewrite length_firstn. lia.
  - intros Hlimit. rewrite PyListFacts.slice_to_nonneg by exact Hlimit.
    rewrite length_firstn. lia.
Qed.

Lemma search_memory_bounded_witness :
  (Z.of_nat (List.length (search_memory six_notes "note" 4)) <= 4)%Z.
Proof.
  apply (search_memory_bounded six_notes "note" 4). lia.
Defined.

Lemma lower_char_is_space (c : ascii) :
  PyStr.is_space (PyStr.lower_char c) = PyStr.is_space c.
Proof. destruct c as [[] [] [] [] [] [] [] []]; reflexivity. Qed.

Lemma lower_char_idempotent (c : ascii) :
  PyStr.lower_char (PyStr.lower_char c) = PyStr.lower_char c.
Proof. destruct c as [[] [] [] [] [] [] [] []]; reflexivity. Qed.

Lemma lower_idempotent (s : string) : PyStr.lower (PyStr.lower s) = PyStr.lower s.
Proof.
  induction s as [|c s IH]; [reflexivity|].
  cbn [PyStr.lower]. now rewrite lower_char_idempotent, IH.
Qed.

Lemma lower_of_list (l : list ascii) :
  PyStr.lower (string_of_list_ascii l)
  = string_of_list_ascii (map PyStr.lower_char l).
Proof.
  induction l as [|c l IH]; [reflexivity|].
  cbn [string_of_list_ascii map PyStr.lower]. now rewrite IH.
Qed.

Lemma flush_lower (cur : list ascii) :
  PyStr.flush (map PyStr.lower_char cur) = map PyStr.lower (PyStr.flush cur).
Proof.
  destruct cur as [|c cur]; [reflexivity|].
  cbn [map PyStr.flush]. rewrite lower_of_list.
  change (PyStr.lower_char c :: map PyStr.lower_char cur)
    with (map PyStr.lower_char (c :: cur)).
  now rewrite map_rev.
Qed.

Lemma split_from_lower (s : string) (cur : list ascii) :
  PyStr.split_from (PyStr.lower s) (map PyStr.lower_char cur)
  = map PyStr.lower (PyStr.split_from s cur).
Proof.
  revert cur. induction s as [|c s IH]; intros cur;
    cbn [PyStr.lower PyStr.split_from].
  - apply flush_lower.
  - rewrite lower_char_is_space. destruct (PyStr.is_space c).
    + rewrite map_app, flush_lower. f_equal. apply (IH []).
    + apply (IH (c :: cur)).
Qed.

(** Lower-casing a query lower-cases its tokens. *)
Lemma split_lower (s : string) :
  PyStr.split (PyStr.lower s) = map PyStr.lower (PyStr.split s).
Proof. apply (split_from_lower s []). Qed.

Lemma relevant_to_lower (query : string) (mem : MemoryItem) :
  relevant_to (PyStr.lower query) mem = relevant_to query mem.
Proof.
  unfold relevant_to. rewrite split_lower.
  induction (PyStr.split query) as [|w ws IH]; [reflexivity|].
  cbn [map existsb]. now rewrite lower_idempotent, IH.
Qed.

Lemma search_memory_lower (self : MemorySystem) (query : string) (limit : Z) :
  search_memory self (PyStr.lower query) limit = search_memory self query limit.
Proof.
  unfold search_memory. f_equal. f_equal.
  apply filter_ext. intros mem. apply relevant_to_lower.
Qed.

(** X4. The case of the query does not matter: two queries that are equal
    once lower-cased return the same result. *)
Theorem search_memory_query_case (self : MemorySystem) (query1 query2 : string)
    (limit : Z) :
  PyStr.lower query1 = PyStr.lower query2 ->
  search_memory self query1 limit = search_memory self query2 limit.
Proof.
  intros H.
  rewrite <- (search_memory_lower self query1), <- (search_memory_lower self query2).
  now rewrite H.
Qed.

Lemma search_memory_query_case_witness :
  search_memory archive "BINDING Site" 5 = search_memory archive "binding sITE" 5.
Proof.
  apply (search_memory_query_case archive "BINDING Site" "binding sITE" 5).
  reflexivity.
Defined.

(** ** Persistence across operations *)
















Lemma step_store_frame (o : op) (self : MemorySystem) (st st' : Store.store) :
  fst (step o (self, st)) = fst (step o (self, st')).
Proof. destruct o; reflexivity. Qed.

Lemma step_unwritable (o : op) (self : MemorySystem) (st : Store.store) :
  Store.writable st = false -> snd (step o (self, st)) = st.
Proof.
  intros Hw. destruct o; cbn [step add_short_term add_long_term fst snd];
    unfold _save_memory; now rewrite ?Hw.
Qed.

(** X6. Failed writes are swallowed: on a store that cannot be written,
    every sequence of operations leaves the store as it was, and the
    manager ends in the same state as it would on any other store. *)
Theorem unwritable_store_untouched (ops : list op) (self : MemorySystem)
    (st st' : Store.store) :
  Store.writable st = false ->
  snd (run ops (self, st)) = st /\
  fst (run ops (self, st)) = fst (run ops (self, st')).
Proof.
  intros Hw. revert self st'.
  induction ops as [|o ops IH]; intros self st'; cbn [run].
  - now split.
  - rewrite (surjective_pairing (step o (self, st))).
    rewrite (surjective_pairing (step o (self, st'))).
    rewrite (step_unwritable o self st Hw).
    rewrite (step_store_frame o self st st').
    apply IH.
Qed.

Lemma unwritable_store_untouched_witness :
  snd (run [AddLongTerm sample_time "B" 1 None]
           (two_notes, Store.mkStore Store.Malformed false))
  = Store.mkStore Store.Malformed false.
Proof.
  apply (unwritable_store_untouched
           [AddLongTerm sample_time "B" 1 None] two_notes
           (Store.mkStore Store.Malformed false) empty_store).
  reflexivity.
Defined.

(** X7. [short_term] is not persisted: a manager the constructor has just
    built has an empty [short_term], so [get_context] returns the
    sentinel and [search_memory] draws on the loaded [long_term] only. *)
Theorem fresh_manager_has_no_context (cap : Z) (st : Store.store)
    (self : MemorySystem) (limit : Z) (query : string) :
  __init__ cap st = Built self ->
  get_context self limit = "No previous context." /\
  forall mem, In mem (search_memory self query limit) -> In mem (long_term self).
Proof.
  intros Hinit. destruct (init_short_term cap st self Hinit) as [Hs _].
  split.
  - unfold get_context. now rewrite Hs.
  - intros mem Hin. rewrite search_memory_unfold in Hin.
    apply PyListFacts.slice_to_incl in Hin.
    apply (Permutation_in _ (PyListFacts.sorted_desc_perm importance _)) in Hin.
    apply filter_In in Hin. destruct Hin as [Hc _].
    unfold candidates in Hc. now rewrite Hs in Hc.
Qed.

Lemma fresh_manager_has_no_context_witness :
  get_context (mkMemorySystem 10 [] (long_term archive)) 5
  = "No previous context.".
Proof.
  apply (fresh_manager_has_no_context 10 (_save_memory archive empty_store)
           (mkMemorySystem 10 [] (long_term archive)) 5 "note").
  reflexivity.
Defined.

(* ================================================================== *)
(** * The tool registry *)

Module PyDictFacts.
Import PyDict.

Section DictFacts.
Context {V : Type}.
Implicit Types (d : dict V) (k : string) (v : V).

Lemma get_set_same k v d : get k (set k v d) = Some v.
Proof.
  induction d as [|[k' v'] d IH]; cbn [set get].
  - now rewrite String.eqb_refl.
  - destruct (String.eqb k k') eqn:E; cbn [get]; rewrite E; [reflexivity|exact IH].
Qed.

Lemma get_set_other k k' v d : k <> k' -> get k' (set k v d) = get k' d.
Proof.
  intros Hne. induction d as [|[k0 v0] d IH]; cbn [set get].
  - destruct (String.eqb_spec k' k); [congruence|reflexivity].
  - destruct (String.eqb_spec k k0) as [->|Hk]; cbn [get].
    + destruct (String.eqb_spec k' k0); [congruence|reflexivity].
    + now rewrite IH.
Qed.

Lemma get_in_keys k d : get k d <> None <-> In k (keys d).
Proof.
  induction d as [|[k' v'] d IH]; cbn [get keys map fst In].
  - tauto.
  - destruct (String.eqb_spec k k') as [->|Hne].
    + split; [now left|discriminate].
    + rewrite IH. unfold keys. split; [now right|].
      intros [H|H]; [congruence|exact H].
Qed.

(** Assigning to a key that is present keeps the keys; a new key goes to
    the end. *)
Lemma keys_set k v d :
  keys (set k v d) = if in_dec string_dec k (keys d) then keys d
                     else keys d ++ [k].
Proof.
  induction d as [|[k' v'] d IH]; cbn [set keys map fst app].
  - reflexivity.
  - destruct (String.eqb_spec k k') as [->|Hne]; cbn [map fst].
    + destruct (in_dec string_dec k' (k' :: map fst d)) as [|Hn];
        [reflexivity|]. exfalso. apply Hn. now left.
    + unfold keys in IH. rewrite IH.
      destruct (in_dec string_dec k (map fst d)) as [Hin|Hout];
      destruct (in_dec string_dec k (k' :: map fst d)) as [Hin'|Hout'];
        try reflexivity.
      * exfalso. apply Hout'. now right.
      * exfalso. destruct Hin' as [H|H]; [congruence|contradiction].
Qed.

Lemma keys_set_in k k' v d : In k' (keys (set k v d)) <-> k' = k \/ In k' (keys d).
Proof.
  rewrite keys_set. destruct (in_dec string_dec k (keys d)) as [Hin|Hout].
  - split; [now right|]. intros [->|H]; assumption.
  - rewrite in_app_iff. cbn [In]. split.
    + intros [H|[H|[]]]; [now right|now left].
    + intros [->|H]; [right; now left|now left].
Qed.

Lemma keys_set_nodup k v d : NoDup (keys d) -> NoDup (keys (set k v d)).
Proof.
  intros H. rewrite keys_set.
  destruct (in_dec string_dec k (keys d)) as [Hin|Hout]; [exact H|].
  apply NoDup_app; [exact H|repeat constructor; intros []|].
  intros x Hx [<-|[]]. contradiction.
Qed.

End DictFacts.

End PyDictFacts.

Lemma register_tool_names (self : ToolRegistry) (name : string)
    (func : callable) (description : option string) :
  declared_names (register_tool self name func description)
  = declared_names self ++ [name].
Proof. unfold declared_names, register_tool. cbn. now rewrite map_app. Qed.

(** What every registry built by registrations satisfies. *)
Lemma register_all_invariant
    (entries : list (string * callable * option string)) (self : ToolRegistry) :
  NoDup (PyDict.keys (tools self)) ->
  (forall name, In name (PyDict.keys (tools self)) <-> In name (declared_names self)) ->
  let r := register_all entries self in
  NoDup (PyDict.keys (tools r)) /\
  (forall name, In name (PyDict.keys (tools r)) <-> In name (declared_names r)) /\
  declared_names r = declared_names self ++ entry_names entries.
Proof.
  revert self. induction entries as [|[[name func] desc] entries IH];
    intros self Hnd Hsame; cbn [register_all].
  - cbn. rewrite app_nil_r. auto.
  - destruct (IH (register_tool self name func desc)) as (H1 & H2 & H3).
    + cbn [register_tool tools]. now apply PyDictFacts.keys_set_nodup.
    + intros n. rewrite register_tool_names. cbn [register_tool tools].
      rewrite PyDictFacts.keys_set_in, in_app_iff, Hsame. cbn [In].
      intuition congruence.
    + split; [exact H1|]. split; [exact H2|].
      rewrite H3, register_tool_names, <- app_assoc. reflexivity.
Qed.

(** X8. [register_tool] binds the name to the given callable, replacing
    any callable registered under that name before, and leaves every
    other name as it was. *)
Theorem register_tool_lookup (self : ToolRegistry) (name : string)
    (func : callable) (description : option string) :
  let r := register_tool self name func description in
  PyDict.get name (tools r) = Some func /\
  forall other, other <> name ->
    PyDict.get other (tools r) = PyDict.get other (tools self).
Proof.
  cbn [register_tool tools]. split.
  - apply PyDictFacts.get_set_same.
  - intros other Hne. apply PyDictFacts.get_set_other. congruence.
Qed.

(** X9. After any series of registrations on a new registry, every
    registration has left one declaration, in order, also when its name
    had been registered before; [tools] has each name once; the declared
    names and the registered names are the same names; and so there are
    at most as many tools as declarations, and as many when no name was
    registered twice. [get_tools_config] has one entry per declaration. *)
Theorem registry_names_agree (entries : list (string * callable * option string)) :
  let r := register_all entries empty_registry in
  declared_names r = entry_names entries /\
  NoDup (PyDict.keys (tools r)) /\
  (forall name, In name (PyDict.keys (tools r)) <-> In name (entry_names entries)) /\
  (List.length (tools r) <= List.length (tool_declarations r))%nat /\
  (NoDup (entry_names entries) ->
   List.length (tools r) = List.length (tool_declarations r)) /\
  List.length (get_tools_config r) = List.length entries.
Proof.
  destruct (register_all_invariant entries empty_registry) as (Hnd & Hsame & Hnames).
  { constructor. }
  { intros name. reflexivity. }
  cbn [declared_names empty_registry tool_declarations map app] in Hnames.
  intros r. fold r in Hnd, Hsame, Hnames.
  assert (Hlt : List.length (tools r) = List.length (PyDict.keys (tools r)))
    by (unfold PyDict.keys; now rewrite length_map).
  assert (Hld : List.length (tool_declarations r) = List.length (entry_names entries))
    by (rewrite <- Hnames; unfold declared_names; now rewrite length_map).
  split; [exact Hnames|]. split; [exact Hnd|].
  split; [intros name; now rewrite Hsame, Hnames|].
  split; [|split].
  - rewrite Hlt, Hld. apply NoDup_incl_length; [exact Hnd|].
    intros name Hin. apply Hsame in Hin. now rewrite Hnames in Hin.
  - intros Hdistinct. rewrite Hlt, Hld.
    apply Nat.le_antisymm.
    + apply NoDup_incl_length; [exact Hnd|].
      intros name Hin. apply Hsame in Hin. now rewrite Hnames in Hin.
    + apply NoDup_incl_length; [exact Hdistinct|].
      intros name Hin. apply Hsame. now rewrite Hnames.
  - unfold get_tools_config. rewrite length_map, Hld.
    unfold entry_names. now rewrite length_map.
Qed.

Lemma registry_names_agree_witness :
  let r := register_all [("a", sample_tool "1", None);
                         ("b", failing_tool, None)] empty_registry in
  List.length (tools r) = List.length (tool_declarations r).
Proof.
  destruct (registry_names_agree [("a", sample_tool "1", None);
                                  ("b", failing_tool, None)])
    as (_ & _ & _ & _ & Hsame & _).
  apply Hsame.
  repeat constructor; cbn; intuition discriminate.
Defined.

Lemma register_all_app (a b : list (string * callable * option string))
    (self : ToolRegistry) :
  register_all (a ++ b) self = register_all b (register_all a self).
Proof.
  revert self. induction a as [|[[name func] desc] a IH]; intros self.
  - reflexivity.
  - cbn [app register_all]. apply IH.
Qed.

Lemma register_all_get_other
    (entries : list (string * callable * option string))
    (self : ToolRegistry) (name : string) :
  ~ In name (entry_names entries) ->
  PyDict.get name (tools (register_all entries self)) = PyDict.get name (tools self).
Proof.
  revert self. induction entries as [|[[n func] desc] entries IH];
    intros self Hout; cbn [register_all].
  - reflexivity.
  - cbn [entry_names map fst In] in Hout.
    rewrite IH by (intros H; apply Hout; now right).
    cbn [register_tool tools]. apply PyDictFacts.get_set_other.
    intros ->. apply Hout. now left.
Qed.

Lemma register_all_get_last
    (before later : list (string * callable * option string))
    (name : string) (func : callable) (description : option string)
    (self : ToolRegistry) :
  ~ In name (entry_names later) ->
  PyDict.get name
    (tools (register_all (before ++ (name, func, description) :: later) self))
  = Some func.
Proof.
  intros Hout. rewrite register_all_app. cbn [register_all].
  rewrite register_all_get_other by exact Hout.
  cbn [register_tool tools]. apply PyDictFacts.get_set_same.
Qed.

(** X10. The last registration of a name wins: the callable found under a
    name is the one of the latest registration carrying that name. *)
Theorem last_registration_wins
    (before later : list (string * callable * option string))
    (name : string) (func : callable) (description : option string)
    (self : ToolRegistry) :
  ~ In name (entry_names later) ->
  PyDict.get name
    (tools (register_all (before ++ (name, func, description) :: later) self))
  = Some func.
Proof. apply register_all_get_last. Qed.

Lemma last_registration_wins_witness :
  option_map doc
    (PyDict.get "a"
       (tools (register_all [("a", failing_tool, None);
                             ("a", sample_tool "2", None);
                             ("b", failing_tool, None)] empty_registry)))
  = Some (Some "A sample tool.").
Proof.
  assert (Hout : ~ In "a" (entry_names [("b", failing_tool, None)]))
    by (cbn; intuition discriminate).
  pose proof (last_registration_wins [("a", failing_tool, None)]
                [("b", failing_tool, None)] "a" (sample_tool "2") None
                empty_registry Hout) as H.
  cbn [app] in H. rewrite H. reflexivity.
Defined.

Lemma description_or_default_nonempty (description : option string)
    (name : string) :
  description_or_default description name <> EmptyString.
Proof.
  unfold description_or_default.
  destruct description as [[|c s]|]; discriminate.
Qed.

Lemma register_all_described
    (entries : list (string * callable * option string)) (self : ToolRegistry) :
  Forall (fun decl => decl_description decl <> EmptyString)
         (tool_declarations self) ->
  Forall (fun decl => decl_description decl <> EmptyString)
         (tool_declarations (register_all entries self)).
Proof.
  revert self. induction entries as [|[[name func] desc] entries IH];
    intros self H; cbn [register_all]; [exact H|].
  apply IH. cbn [register_tool tool_declarations].
  apply Forall_app. split; [exact H|].
  constructor; [|constructor]. apply description_or_default_nonempty.
Qed.

(** X11. No declaration is left without a description: whatever is
    registered, with or without a description or a docstring, every
    declaration of the registry has a description that is not empty. An
    empty description given explicitly is replaced by ["Tool for <name>"]
    even when the callable has a docstring. *)
Theorem declarations_described
    (entries : list (string * callable * option string)) :
  Forall (fun decl => decl_description decl <> EmptyString)
         (tool_declarations (register_all entries empty_registry)) /\
  forall self name func,
    tool_declarations (register_tool self name func (Some EmptyString))
    = tool_declarations self ++
      [mkDeclaration name ("Tool for " ++ name)%string (_extract_parameters func)].
Proof.
  split.
  - apply register_all_described. constructor.
  - reflexivity.
Qed.

(* ================================================================== *)
(** * The agent: API key *)

Module PyStr2Facts.
Import PyStr2.

Lemma rstrip_idempotent (s : string) : rstrip (rstrip s) = rstrip s.
Proof.
  induction s as [|c s IH]; [reflexivity|].
  cbn [rstrip]. destruct (rstrip s) as [|d r] eqn:E.
  - destruct (PyStr.is_space c) eqn:Ec; cbn [rstrip]; [reflexivity|].
    now rewrite Ec.
  - cbn [rstrip]. cbn [rstrip] in IH. now rewrite IH.
Qed.

Lemma rstrip_cons (c : ascii) (s : string) :
  PyStr.is_space c = false -> rstrip (String c s) = String c (rstrip s).
Proof.
  intros Hc. cbn [rstrip]. destruct (rstrip s); [now rewrite Hc|reflexivity].
Qed.

Lemma lstrip_head (s : string) :
  lstrip s = EmptyString \/
  exists c t, lstrip s = String c t /\ PyStr.is_space c = false.
Proof.
  induction s as [|c s IH]; [now left|].
  cbn [lstrip]. destruct (PyStr.is_space c) eqn:Ec; [exact IH|].
  right. now exists c, s.
Qed.

(** Stripping a stripped string changes nothing. *)
Lemma strip_idempotent (s : string) : strip (strip s) = strip s.
Proof.
  unfold strip. destruct (lstrip_head s) as [->|(c & t & -> & Hc)].
  - reflexivity.
  - rewrite (rstrip_cons c t Hc). cbn [lstrip]. rewrite Hc.
    rewrite (rstrip_cons c _ Hc). now rewrite rstrip_idempotent.
Qed.

End PyStr2Facts.

Lemma choose_api_key_inr (api_key : option string) (env : environ)
    (key : string) (env' : environ) :
  choose_api_key api_key env = inr (key, env') ->
  exists raw,
    PyStr2.or_else (PyStr2.or_else api_key (GEMINI_API_KEY env))
                   (GOOGLE_API_KEY env) = Some raw /\
    raw <> EmptyString /\
    key = PyStr2.strip raw /\
    key <> EmptyString /\
    PyStr2.startswith "AIza" key = true /\
    has_null key = false /\
    env' = mkEnviron (GEMINI_API_KEY env) (Some key).
Proof.
  unfold choose_api_key.
  destruct (PyStr2.or_else _ _) as [raw|]; cbn [PyStr2.truthy option_map];
    [|discriminate].
  destruct raw as [|c0 s0]; cbn [PyStr2.truthy option_map]; [discriminate|].
  destruct (PyStr2.strip (String c0 s0)) as [|c s] eqn:Es; [discriminate|].
  destruct (PyStr2.startswith "AIza" (String c s)) eqn:Ep; [|discriminate].
  destruct (has_null (String c s)) eqn:En; [discriminate|].
  intros [= <- <-]. exists (String c0 s0). rewrite Es.
  repeat split; congruence.
Qed.

(** The chain of [or] of line 178 returns the first non-empty source. *)
Lemma or_else_first (a g go : option string) (raw : string) :
  raw <> EmptyString ->
  (PyStr2.or_else (PyStr2.or_else a g) go = Some raw <->
   first_nonempty [a; g; go] = Some raw).
Proof.
  intros Hne. unfold PyStr2.or_else.
  destruct a as [[|ca sa]|], g as [[|cg sg]|], go as [[|co so]|];
    cbn [PyStr2.truthy first_nonempty]; split; intros H;
    try exact H; try discriminate; congruence.
Qed.

Lemma has_null_spec (s : string) :
  has_null s = false <-> ~ In Ascii.zero (list_ascii_of_string s).
Proof.
  unfold has_null. induction s as [|c s IH].
  - cbn. tauto.
  - cbn [PyStr.contains String.prefix list_ascii_of_string In].
    destruct (ascii_dec Ascii.zero c) as [<-|Hne].
    + split; [destruct s; discriminate|intros H; exfalso; auto].
    + cbn [orb]. rewrite IH. intuition congruence.
Qed.

(** X12. The constructor accepts a key exactly in this case: the first
    non-empty of the argument, [GEMINI_API_KEY] and [GOOGLE_API_KEY], taken
    in this order, once stripped, starts with ["AIza"] and holds no
    U+0000. The key is that stripped string; it has been exported as
    [GOOGLE_API_KEY] while [GEMINI_API_KEY] is left alone; and it has no
    whitespace at either end. *)
Theorem accepted_api_key (api_key : option string) (env : environ)
    (key : string) (env' : environ) :
  (choose_api_key api_key env = inr (key, env') <->
   (exists raw,
      first_nonempty [api_key; GEMINI_API_KEY env; GOOGLE_API_KEY env]
        = Some raw /\
      key = PyStr2.strip raw) /\
   PyStr2.startswith "AIza" key = true /\
   ~ In Ascii.zero (list_ascii_of_string key) /\
   env' = mkEnviron (GEMINI_API_KEY env) (Some key)) /\
  (choose_api_key api_key env = inr (key, env') -> PyStr2.strip key = key).
Proof.
  split; [split|].
  - intros H.
    destruct (choose_api_key_inr api_key env key env' H)
      as (raw & Hraw & Hrne & Hkey & Hne & Hp & Hn & Henv).
    split; [|split; [exact Hp|split; [now apply has_null_spec|exact Henv]]].
    exists raw. split; [now apply or_else_first|exact Hkey].
  - intros ((raw & Hfirst & Hkey) & Hp & Hn & ->).
    assert (Hrne : raw <> EmptyString).
    { intros ->. clear - Hfirst.
      destruct api_key as [[|? ?]|], (GEMINI_API_KEY env) as [[|? ?]|],
        (GOOGLE_API_KEY env) as [[|? ?]|]; discriminate. }
    apply (or_else_first _ _ _ _ Hrne) in Hfirst.
    apply has_null_spec in Hn.
    unfold choose_api_key. rewrite Hfirst.
    destruct raw as [|c0 s0]; [congruence|].
    cbn [PyStr2.truthy option_map]. rewrite <- Hkey.
    destruct key as [|c s]; [discriminate Hp|].
    now rewrite Hp, Hn.
  - intros H.
    destruct (choose_api_key_inr api_key env key env' H)
      as (raw & _ & _ & -> & _).
    apply PyStr2Facts.strip_idempotent.
Qed.

Lemma accepted_api_key_witness :
  choose_api_key (Some "")
    (mkEnviron (Some (String "009" " AIzaGemini ")) (Some "AIzaGoogle"))
  = inr ("AIzaGemini", mkEnviron (Some (String "009" " AIzaGemini "))
                                 (Some "AIzaGemini")).
Proof.
  apply (accepted_api_key (Some "")
           (mkEnviron (Some (String "009" " AIzaGemini ")) (Some "AIzaGoogle"))).
  split; [|split; [reflexivity|split; [|reflexivity]]].
  - exists (String "009" " AIzaGemini "). split; reflexivity.
  - cbn. intuition discriminate.
Defined.

(** X13. A non-empty [api_key] argument decides alone: the environment is
    not consulted, so an argument that is blank or ill-formed is rejected
    even when the environment holds a good key. *)
Theorem explicit_api_key_decides (c : ascii) (s : string) (env env' : environ) :
  chosen_key (choose_api_key (Some (String c s)) env)
  = chosen_key (choose_api_key (Some (String c s)) env').
Proof.
  unfold choose_api_key, PyStr2.or_else. cbn [PyStr2.truthy option_map].
  destruct (PyStr2.strip (String c s)) as [|c' s']; [reflexivity|].
  destruct (PyStr2.startswith "AIza" (String c' s')); [|reflexivity].
  now destruct (has_null (String c' s')).
Qed.

(** X14. The accepted key is handed on through the environment: when the
    key did not come from an argument overriding [GEMINI_API_KEY], a
    later constructor call without argument accepts the same key and
    leaves the environment as it is. *)
Theorem exported_api_key_reused (api_key : option string) (env : environ)
    (key : string) (env' : environ) :
  choose_api_key api_key env = inr (key, env') ->
  PyStr2.truthy api_key = false \/ PyStr2.truthy (GEMINI_API_KEY env) = false ->
  choose_api_key None env' = inr (key, env').
Proof.
  intros H Hsrc.
  destruct (choose_api_key_inr api_key env key env' H)
    as (raw & Hraw & _ & Hkey & Hne & Hp & Hn & ->).
  assert (Hstrip : PyStr2.strip key = key)
    by (rewrite Hkey; apply PyStr2Facts.strip_idempotent).
  assert (Hdone : forall src,
            src <> EmptyString -> PyStr2.strip src = key ->
            (if PyStr2.truthy (Some src)
             then option_map PyStr2.strip (Some src) else Some src) = Some key).
  { intros src Hsrc' Hs. destruct src; [congruence|].
    cbn [PyStr2.truthy option_map]. now rewrite Hs. }
  unfold choose_api_key. cbn [GEMINI_API_KEY GOOGLE_API_KEY].
  unfold PyStr2.or_else in *. cbn [PyStr2.truthy] in *.
  assert (Hstripped :
            (let chosen := if PyStr2.truthy (GEMINI_API_KEY env)
                           then GEMINI_API_KEY env else Some key in
             if PyStr2.truthy chosen then option_map PyStr2.strip chosen
             else chosen) = Some key).
  { cbv zeta. destruct (PyStr2.truthy (GEMINI_API_KEY env)) eqn:Eg.
    - destruct Hsrc as [Ha|Hg]; [|discriminate].
      rewrite Ha, Eg in Hraw. rewrite Hraw.
      apply Hdone; [|now symmetry].
      intros ->. rewrite Hraw in Eg. discriminate Eg.
    - now apply Hdone. }
  cbv zeta in Hstripped. rewrite Hstripped.
  destruct key; [congruence|]. now rewrite Hp, Hn.
Qed.

Lemma exported_api_key_reused_witness :
  choose_api_key None (mkEnviron None (Some "AIzaSyExample"))
  = inr ("AIzaSyExample", mkEnviron None (Some "AIzaSyExample")).
Proof.
  apply (exported_api_key_reused (Some " AIzaSyExample ") no_environ).
  - reflexivity.
  - now right.
Defined.

(* ================================================================== *)
(** * The agent: conversation *)

(** With nothing but important items in the buffer, an
    [add_short_term] of an important item loses nothing. *)
Lemma add_short_term_conserves (self : MemorySystem) (st : Store.store)
    (now : datetime) (text : string) (weight : Q) (labels : option (list string)) :
  all_important (short_term self) ->
  Qle_bool promotion_threshold weight = true ->
  let self' := fst (add_short_term self st now text weight labels) in
  long_term self' ++ short_term self'
    = long_term self ++ short_term self ++ [new_item now text weight labels] /\
  all_important (short_term self').
Proof.
  intros Hall Hw self'. subst self'.
  set (item := new_item now text weight labels).
  assert (Happ : all_important (short_term self ++ [item])).
  { apply Forall_app. split; [exact Hall|]. now repeat constructor. }
  destruct (Z.ltb_spec (max_short_term self)
                       (Z.of_nat (List.length (short_term self ++ [item]))))
    as [Hover|Hfit].
  - assert (exists oldest rest, short_term self ++ [item] = oldest :: rest)
      as (oldest & rest & E)
      by (destruct (short_term self); cbn; eauto).
    destruct (evict_oldest_over
                (mkMemorySystem (max_short_term self)
                                (short_term self ++ [item]) (long_term self))
                oldest rest E Hover) as [Hs Hl].
    cbn [long_term] in Hl.
    change (short_term (fst (add_short_term self st now text weight labels))
            = rest) in Hs.
    change (long_term (fst (add_short_term self st now text weight labels))
            = long_term self ++
              (if important oldest then [oldest] else [])) in Hl.
    rewrite Hs, Hl, E. rewrite E in Happ.
    inversion Happ as [|? ? Ho Hr]; subst. rewrite Ho.
    split; [now rewrite <- app_assoc|exact Hr].
  - unfold add_short_term. cbn [fst]. fold item.
    rewrite evict_oldest_within by (cbn [short_term max_short_term]; lia).
    cbn [short_term long_term]. now split.
Qed.

Lemma process_message_step (s : MemorySystem * Store.store)
    (now1 now2 : datetime) (message : string) (model : string -> outcome) :
  all_important (short_term (fst s)) ->
  let t := process_message s now1 now2 message model in
  exists reply,
    long_term (fst (memory t)) ++ short_term (fst (memory t))
      = long_term (fst s) ++ short_term (fst s)
        ++ [user_item now1 message; reply] /\
    timestamp reply = now2 /\
    important reply = true /\
    (content reply = ("Agent: " ++ returned t)%string \/
     content reply = returned t) /\
    all_important (short_term (fst (memory t))).
Proof.
  intros Hall t. subst t. unfold process_message.
  destruct (add_short_term_conserves (fst s) (snd s) now1 ("User: " ++ message)
              user_importance None Hall eq_refl) as [H1 Hall1].
  set (s1 := add_short_term (fst s) (snd s) now1 _ user_importance None) in *.
  destruct (model _) as [response_text|error_msg]; cbn [memory returned].
  - destruct (add_short_term_conserves (fst s1) (snd s1) now2
                ("Agent: " ++ response_text) agent_importance None Hall1 eq_refl)
      as [H2 Hall2].
    eexists. split; [|split; [|split; [|split]]].
    + rewrite H2, app_assoc, H1, <- !app_assoc. reflexivity.
    + reflexivity.
    + reflexivity.
    + now left.
    + exact Hall2.
  - destruct (add_short_term_conserves (fst s1) (snd s1) now2
                error_msg error_importance None Hall1 eq_refl)
      as [H2 Hall2].
    eexists. split; [|split; [|split; [|split]]].
    + rewrite H2, app_assoc, H1, <- !app_assoc. reflexivity.
    + reflexivity.
    + reflexivity.
    + now right.
    + exact Hall2.
Qed.

(** X15. A turn of conversation loses nothing. When every item of the
    buffer is important (as all items the agent stores are), after
    [process_message] the archive followed by the buffer is what it was,
    followed by the user's message and then the reply: ["Agent: "] and
    the returned text, or the returned error message. *)
Theorem process_message_conserves (s : MemorySystem * Store.store)
    (now1 now2 : datetime) (message : string) (model : string -> outcome) :
  all_important (short_term (fst s)) ->
  let t := process_message s now1 now2 message model in
  exists reply,
    long_term (fst (memory t)) ++ short_term (fst (memory t))
      = long_term (fst s) ++ short_term (fst s)
        ++ [user_item now1 message; reply] /\
    timestamp reply = now2 /\
    important reply = true /\
    (content reply = ("Agent: " ++ returned t)%string \/
     content reply = returned t) /\
    all_important (short_term (fst (memory t))).
Proof. apply process_message_step. Qed.

Lemma process_message_conserves_witness :
  let t := process_message (mkMemorySystem 1 [] [], empty_store)
             sample_time sample_time "hello" echo_model in
  List.length (long_term (fst (memory t)) ++ short_term (fst (memory t))) = 2%nat.
Proof.
  intros t.
  destruct (process_message_conserves (mkMemorySystem 1 [] [], empty_store)
              sample_time sample_time "hello" echo_model) as (reply & H & _).
  - constructor.
  - subst t. rewrite H. reflexivity.
Defined.

Lemma converse_conserves
    (turns : list (datetime * datetime * string * (string -> outcome)))
    (s : MemorySystem * Store.store) :
  all_important (short_term (fst s)) ->
  exists added,
    long_term (fst (converse turns s)) ++ short_term (fst (converse turns s))
      = long_term (fst s) ++ short_term (fst s) ++ added /\
    List.length added = (2 * List.length turns)%nat /\
    all_important added.
Proof.
  revert s. induction turns as [|[[[now1 now2] message] model] turns IH];
    intros s Hall; cbn [converse].
  - exists []. rewrite !app_nil_r. repeat split. constructor.
  - destruct (process_message_step s now1 now2 message model Hall)
      as (reply & H1 & _ & Hr & _ & Hall1).
    set (t := process_message s now1 now2 message model) in *.
    destruct (IH (memory t) Hall1) as (added & H2 & Hlen & Himp).
    exists (user_item now1 message :: reply :: added).
    split; [|split].
    + rewrite H2, app_assoc, H1, <- !app_assoc. reflexivity.
    + cbn [List.length]. lia.
    + constructor; [reflexivity|]. constructor; [exact Hr|exact Himp].
Qed.

(** X16. Nothing said in a conversation is discarded. Starting from a
    manager the constructor built, after any number of turns the archive
    followed by the buffer is the loaded archive followed by two items
    per turn, all of them important: what overflows the buffer is always
    promoted. *)
Theorem conversation_is_kept
    (turns : list (datetime * datetime * string * (string -> outcome)))
    (cap : Z) (st : Store.store) (self : MemorySystem) :
  __init__ cap st = Built self ->
  let s' := converse turns (self, st) in
  exists added,
    long_term (fst s') ++ short_term (fst s') = long_term self ++ added /\
    List.length added = (2 * List.length turns)%nat /\
    all_important added.
Proof.
  intros Hinit s'. subst s'.
  destruct (init_short_term cap st self Hinit) as [Hs _].
  destruct (converse_conserves turns (self, st)) as (added & H & Hlen & Himp).
  - cbn [fst]. rewrite Hs. constructor.
  - cbn [fst] in H. rewrite Hs in H. cbn [app] in H.
    exists added. now repeat split.
Qed.

Lemma conversation_is_kept_witness :
  let s' := converse [(sample_time, sample_time, "one", echo_model);
                      (sample_time, sample_time, "two", silent_model)]
                     (mkMemorySystem 1 [] [], empty_store) in
  List.length (long_term (fst s') ++ short_term (fst s')) = 4%nat.
Proof.
  intros s'.
  destruct (conversation_is_kept
              [(sample_time, sample_time, "one", echo_model);
               (sample_time, sample_time, "two", silent_model)]
              1 empty_store (mkMemorySystem 1 [] []) eq_refl)
    as (added & H & Hlen & _).
  subst s'. rewrite H. cbn [long_term app]. exact Hlen.
Defined.

Lemma add_short_term_newest (self : MemorySystem) (st : Store.store)
    (now : datetime) (text : string) (weight : Q) (labels : option (list string)) :
  (1 <= max_short_term self)%Z ->
  capacity_respected self ->
  exists earlier,
    short_term (fst (add_short_term self st now text weight labels))
    = earlier ++ [new_item now text weight labels].
Proof.
  intros Hcap Hresp. unfold capacity_respected in Hresp.
  set (item := new_item now text weight labels).
  destruct (Z.ltb_spec (Z.of_nat (List.length (short_term self)))
                       (max_short_term self)) as [Hroom|Hfull].
  - destruct (add_short_term_room self st now text weight labels Hroom)
      as [Hs _].
    exists (short_term self). exact Hs.
  - remember (short_term self) as buf eqn:E.
    destruct buf as [|oldest rest]; [cbn in Hfull; lia|].
    cbn [List.length] in Hfull, Hresp.
    destruct (evict_oldest_over
                (mkMemorySystem (max_short_term self)
                                (short_term self ++ [item]) (long_term self))
                oldest (rest ++ [item])) as [Hs _].
    + cbn [short_term]. now rewrite <- E.
    + cbn [short_term max_short_term]. rewrite <- E, length_app. cbn. lia.
    + exists rest. exact Hs.
Qed.

Lemma get_context_last (self : MemorySystem) (limit : Z) :
  short_term self <> [] ->
  (0 < limit)%Z ->
  get_context self limit
  = PyStr.join newline
      (map rendered (last_items (Z.to_nat limit) (short_term self))).
Proof.
  intros Hne Hpos. unfold get_context.
  destruct (short_term self) as [|m l] eqn:E; [easy|].
  rewrite PyListFacts.slice_from_last by exact Hpos.
  unfold last_items, newline. f_equal.
  apply map_ext. exact context_line_rendered.
Qed.

(** X17. The model is shown the message it is asked about: for a
    capacity of at least 1, the context in the text sent to the model
    ends with the line of the user's message, after at most four earlier
    lines. *)
Theorem prompt_ends_with_user_message (s : MemorySystem * Store.store)
    (now1 now2 : datetime) (message : string) (model : string -> outcome) :
  (1 <= max_short_term (fst s))%Z ->
  capacity_respected (fst s) ->
  exists earlier,
    (List.length earlier <= 4)%nat /\
    sent (process_message s now1 now2 message model)
    = prompt (PyStr.join newline
                (earlier ++ [rendered (user_item now1 message)]))
             message.
Proof.
  intros Hcap Hresp.
  destruct (add_short_term_newest (fst s) (snd s) now1 ("User: " ++ message)
              user_importance None Hcap Hresp) as [pre Hs].
  exists (map rendered (skipn (List.length pre - 4) pre)). split.
  - rewrite length_map, length_skipn. lia.
  - unfold process_message.
    set (s1 := add_short_term (fst s) (snd s) now1 _ user_importance None) in *.
    assert (Hctx : get_context (fst s1) 5
                   = PyStr.join newline
                       (map rendered (skipn (List.length pre - 4) pre)
                        ++ [rendered (user_item now1 message)])).
    { rewrite get_context_last; [|rewrite Hs; now destruct pre|lia].
      rewrite Hs. unfold last_items. rewrite length_app. cbn [List.length].
      rewrite skipn_app, map_app.
      replace (List.length pre + 1 - Z.to_nat 5)%nat
        with (List.length pre - 4)%nat by lia.
      replace (List.length pre - 4 - List.length pre)%nat with 0%nat by lia.
      reflexivity. }
    rewrite <- Hctx. now destruct (model _).
Qed.

Lemma prompt_ends_with_user_message_witness :
  exists earlier,
    (List.length earlier <= 4)%nat /\
    sent (process_message (six_notes, empty_store) sample_time sample_time
            "hello" silent_model)
    = prompt (PyStr.join newline
                (earlier ++ [rendered (user_item sample_time "hello")]))
             "hello".
Proof.
  apply (prompt_ends_with_user_message (six_notes, empty_store)).
  - cbn. lia.
  - unfold capacity_respected. cbn. lia.
Defined.

(* ================================================================== *)
(** * The agent: function calls *)

(** X18. [_handle_function_calls] answers exactly the calls to
    registered tools, in the order of the calls: a call to a name that is
    not registered gets no result at all, and a tool that raises gets a
    result (carrying the error text) and does not stop the calls after
    it. *)
Theorem execute_calls_names (tools : PyDict.dict callable)
    (calls : list (string * Json.value)) :
  map fst (execute_calls tools calls)
  = filter (registered tools) (map fst calls).
Proof.
  induction calls as [|[tool_name args] calls IH]; [reflexivity|].
  cbn [execute_calls map fst filter]. unfold registered at 1.
  destruct (PyDict.get tool_name tools); cbn [map fst]; now rewrite IH.
Qed.

Lemma distinct_NoDup (l : list string) : distinct l = true -> NoDup l.
Proof.
  induction l as [|x l IH]; cbn [distinct]; intros H; [constructor|].
  apply andb_prop in H. destruct H as [Hx Hl].
  constructor; [|now apply IH].
  intros Hin. apply negb_true_iff in Hx.
  assert (Hex : existsb (String.eqb x) l = true)
    by (apply existsb_exists; exists x; split; [exact Hin|apply String.eqb_refl]).
  congruence.
Qed.

(** X19. The integrated agent ends up with 28 tools under 28 different
    names: no registration of one module replaces a tool of another, each
    name is bound to its own function, and each has exactly one
    declaration, carrying the description given at registration. *)
Theorem integrated_agent_tools (impl : string -> callable) :
  let r := integrated_registry impl in
  tools r = map (fun e => (fst e, impl (fst e))) integrated_tools /\
  tool_declarations r
    = map (fun e => mkDeclaration (fst e) (snd e) (_extract_parameters (impl (fst e))))
          integrated_tools /\
  NoDup (map fst integrated_tools) /\
  List.length (tools r) = 28%nat.
Proof.
  cbv zeta.
  split; [vm_compute; reflexivity|].
  split; [vm_compute; reflexivity|].
  split; [apply distinct_NoDup; vm_compute; reflexivity|].
  vm_compute. reflexivity.
Qed.

(** X20. Raising the limit only adds results at the end: for limits
    [0 <= a <= b], the result for [a] is the first [a] entries of the
    result for [b]. *)
Theorem search_memory_limit_prefix (self : MemorySystem) (query : string)
    (a b : Z) :
  (0 <= a <= b)%Z ->
  search_memory self query a
  = firstn (Z.to_nat a) (search_memory self query b).
Proof.
  intros Hab. rewrite !search_memory_unfold.
  rewrite !PyListFacts.slice_to_nonneg by lia.
  rewrite firstn_firstn. f_equal. lia.
Qed.

Lemma search_memory_limit_prefix_witness :
  search_memory six_notes "note" 2
  = firstn 2 (search_memory six_notes "note" 5).
Proof.
  apply (search_memory_limit_prefix six_notes "note" 2 5). lia.
Defined.

Lemma search_memory_finds (self : MemorySystem) (query : string) (limit : Z)
    (mem : MemoryItem) :
  In mem (candidates self) ->
  mentions query mem ->
  (Z.of_nat (List.length (candidates self)) <= limit)%Z ->
  In mem (search_memory self query limit).
Proof.
  intros Hin Hm Hlimit. rewrite search_memory_unfold.
  set (hits := filter (relevant_to query) (candidates self)).
  assert (Hperm : Permutation (PyList.sorted_desc importance hits) hits)
    by apply PyListFacts.sorted_desc_perm.
  rewrite PyListFacts.slice_to_all.
  - apply (Permutation_in _ (Permutation_sym Hperm)).
    subst hits. apply filter_In. split; [exact Hin|now apply relevant_to_spec].
  - rewrite (Permutation_length Hperm). subst hits.
    pose proof (filter_length_le (relevant_to query) (candidates self)). lia.
Qed.

(** X21. What has just been stored can be found: after [add_long_term],
    and after [add_short_term] on a manager of capacity at least 1, a
    query with a token that occurs in the new item's content returns the
    item, provided the limit is not below the number of stored items. *)
Theorem stored_item_is_found (self : MemorySystem) (st : Store.store)
    (now : datetime) (text : string) (weight : Q)
    (labels : option (list string)) (query : string) (limit : Z) :
  let item := new_item now text weight labels in
  mentions query item ->
  (let self' := fst (add_long_term self st now text weight labels) in
   (Z.of_nat (List.length (candidates self')) <= limit)%Z ->
   In item (search_memory self' query limit)) /\
  (let self' := fst (add_short_term self st now text weight labels) in
   (1 <= max_short_term self)%Z ->
   capacity_respected self ->
   (Z.of_nat (List.length (candidates self')) <= limit)%Z ->
   In item (search_memory self' query limit)).
Proof.
  intros item Hm. split.
  - intros self' Hlimit. apply search_memory_finds; [|exact Hm|exact Hlimit].
    subst self'. unfold candidates. cbn. rewrite !in_app_iff. cbn. tauto.
  - intros self' Hcap Hresp Hlimit.
    apply search_memory_finds; [|exact Hm|exact Hlimit].
    destruct (add_short_term_newest self st now text weight labels Hcap Hresp)
      as [earlier Hs].
    subst self'. unfold candidates. rewrite Hs, !in_app_iff. cbn. tauto.
Qed.

Lemma stored_item_is_found_witness :
  In (new_item sample_time "binding site analysis" 1 None)
     (search_memory
        (fst (add_long_term two_notes empty_store sample_time
                "binding site analysis" 1 None))
        "Binding" 5).
Proof.
  destruct (stored_item_is_found two_notes empty_store sample_time
              "binding site analysis" 1 None "Binding" 5) as [Hlong _].
  - apply relevant_to_spec. vm_compute. reflexivity.
  - apply Hlong. vm_compute. discriminate.
Defined.
